(** * ScannerMotorInterfuse: the confocal scanner built on a motor stage

    A shallow embedding of
    [logic/interfuse/confocal_scanner_motor_interfuse.py] and the
    properties of its range validation, position bookkeeping, activation
    and per-pixel line scan.

    Python floats are IEEE binary64 numbers: they are Rocq's primitive
    floats, with the same comparisons (a comparison with NaN is false).
    A numpy array has an element type: the position array holds binary64
    numbers or 64-bit integers, after the numbers it was built from.
    Dictionaries are stdpp's [gmap string _].  The methods of the class run
    in a state-and-exception monad over the attributes of [self], the state
    of the two collaborators (stage hardware and counter logic), the list
    of calls made to them and the log. *)

From Stdlib Require Import ZArith Floats.
From stdpp Require Import gmap strings list.

Set Warnings "-inexact-float".
Set Default Proof Using "Type".

(** ** Python values, exceptions and the collaborators *)

(** The exception classes that the module raises, catches or lets through.
    All of them derive from [Exception]. *)
Inductive exn :=
  | KeyError | IndexError | TypeError | AttributeError | ValueError
  | OverflowError | HardwareError.

Inductive outcome (A : Type) :=
  | Ret (a : A)
  | Raise (e : exn).
Arguments Ret {A} a.
Arguments Raise {A} e.

Inductive log_level := LogDebug | LogWarning | LogError.

(** *** Numbers

    The entries of an integer array ([dtype=int64]) are the integers from
    -2^63 up to 2^63 - 1. *)
Definition fits_int64 (z : Z) : bool := (- 2 ^ 63 <=? z)%Z && (z <? 2 ^ 63)%Z.

Record int64 := {
  int64_Z : Z;
  int64_fits : fits_int64 int64_Z = true;
}.

Definition int64_zero : int64 := {| int64_Z := 0; int64_fits := eq_refl |}.

Definition int64_min : int64 := {| int64_Z := - 2 ^ 63; int64_fits := eq_refl |}.

(** The integer [z] when it fits, the least 64-bit integer otherwise. *)
Definition int64_of_Z (z : Z) : int64 :=
  match fits_int64 z as b return fits_int64 z = b → int64 with
  | true => λ H, {| int64_Z := z; int64_fits := H |}
  | false => λ _, int64_min
  end eq_refl.

(** A number as the stage reports it and as an array entry reads: a Python
    [int] (taken to fit in 64 bits, as an [int64] array entry does) or a
    Python [float]. *)
Inductive number :=
  | PyInt (n : int64)
  | PyFloat (f : float).

(** The float nearest to an integer (ties to even), as [float(n)] and the
    conversion of an integer to an entry of a [float64] array have it. *)
Definition Z_to_float (z : Z) : float :=
  SF2Prim (binary_normalize prec emax z 0 false).

Definition number_to_float (n : number) : float :=
  match n with
  | PyInt n => Z_to_float (int64_Z n)
  | PyFloat f => f
  end.

(** A Python float written to an entry of an [int64] array: the entry is
    [int(v)], the float without its fraction (rounding toward zero); a NaN
    raises [ValueError]; an infinity and a value beyond the 64-bit integers
    raise [OverflowError]. *)
Definition float_to_int64 (v : float) : exn + int64 :=
  match Prim2SF v with
  | S754_zero _ => inr int64_zero
  | S754_finite sign m e =>
      let n := if (0 <=? e)%Z then (Z.pos m * 2 ^ e)%Z
               else (Z.pos m / 2 ^ (- e))%Z in
      let z := if sign then (- n)%Z else n in
      if fits_int64 z then inr (int64_of_Z z) else inl OverflowError
  | S754_infinity _ => inl OverflowError
  | S754_nan => inl ValueError
  end.

(** Calls made to the collaborators, in the order they are made. *)
Inductive event :=
  | EvGetConstraints
  | EvGetPos
  | EvMoveAbs (move_dict : gmap string number)
  | EvOnTarget
  | EvSleep (seconds : float)
  | EvCountdata.

(** The stage hardware ([_stage_hw]), the counter logic ([_counter_logic]),
    [time.sleep] and [np.mean] are outside the module.  Each device call
    acts on the state of the outside world and returns or raises. *)
Record environment := {
  World : Type;
  stage_get_constraints :
    World → outcome (gmap string (gmap string float)) * World;
  stage_get_pos : World → outcome (gmap string number) * World;
  stage_move_abs : gmap string number → World → outcome () * World;
  stage_on_target : World → outcome Z * World;
  time_sleep : float → World → outcome () * World;
  counter_countdata : World → list (list float);
  np_mean : list float → float;
}.

(** What [_current_position] is bound to: the array built from a position
    read from the stage, a [float64] array ([PosNdarray]) or an [int64]
    array ([PosNdarrayInt]); the 0-d array [np.array(None)]; or the list
    object that [_middle_xyz_pos] is bound to as well. *)
Inductive position_store :=
  | PosNdarray (v : list float)
  | PosNone0d
  | PosMiddleList
  | PosNdarrayInt (v : list int64).

(** The attributes of [self].  An attribute that is not bound yet is
    [None]; reading it raises [AttributeError]. *)
Record adapter := {
  _scanner_position_ranges : list (list float);
  _position_range : option (list (list float));
  _middle_xyz_pos : option (list float);
  _current_position : option position_store;
  _line_length : option nat;
  _dwell_cnt_bins : option Z;
  _dwell_delay : option float;
}.

Definition set_scanner_position_ranges (v : list (list float)) (a : adapter) :=
  {| _scanner_position_ranges := v;
     _position_range := _position_range a;
     _middle_xyz_pos := _middle_xyz_pos a;
     _current_position := _current_position a;
     _line_length := _line_length a;
     _dwell_cnt_bins := _dwell_cnt_bins a;
     _dwell_delay := _dwell_delay a |}.

Definition set_position_range_attr (v : list (list float)) (a : adapter) :=
  {| _scanner_position_ranges := _scanner_position_ranges a;
     _position_range := Some v;
     _middle_xyz_pos := _middle_xyz_pos a;
     _current_position := _current_position a;
     _line_length := _line_length a;
     _dwell_cnt_bins := _dwell_cnt_bins a;
     _dwell_delay := _dwell_delay a |}.

Definition set_middle_xyz_pos (v : list float) (a : adapter) :=
  {| _scanner_position_ranges := _scanner_position_ranges a;
     _position_range := _position_range a;
     _middle_xyz_pos := Some v;
     _current_position := _current_position a;
     _line_length := _line_length a;
     _dwell_cnt_bins := _dwell_cnt_bins a;
     _dwell_delay := _dwell_delay a |}.

Definition set_current_position (v : position_store) (a : adapter) :=
  {| _scanner_position_ranges := _scanner_position_ranges a;
     _position_range := _position_range a;
     _middle_xyz_pos := _middle_xyz_pos a;
     _current_position := Some v;
     _line_length := _line_length a;
     _dwell_cnt_bins := _dwell_cnt_bins a;
     _dwell_delay := _dwell_delay a |}.

Definition set_line_length (v : nat) (a : adapter) :=
  {| _scanner_position_ranges := _scanner_position_ranges a;
     _position_range := _position_range a;
     _middle_xyz_pos := _middle_xyz_pos a;
     _current_position := _current_position a;
     _line_length := Some v;
     _dwell_cnt_bins := _dwell_cnt_bins a;
     _dwell_delay := _dwell_delay a |}.

Definition set_dwell_cnt_bins_attr (v : Z) (a : adapter) :=
  {| _scanner_position_ranges := _scanner_position_ranges a;
     _position_range := _position_range a;
     _middle_xyz_pos := _middle_xyz_pos a;
     _current_position := _current_position a;
     _line_length := _line_length a;
     _dwell_cnt_bins := Some v;
     _dwell_delay := _dwell_delay a |}.

Definition set_dwell_delay_attr (v : float) (a : adapter) :=
  {| _scanner_position_ranges := _scanner_position_ranges a;
     _position_range := _position_range a;
     _middle_xyz_pos := _middle_xyz_pos a;
     _current_position := _current_position a;
     _line_length := _line_length a;
     _dwell_cnt_bins := _dwell_cnt_bins a;
     _dwell_delay := Some v |}.

(** [__init__]: the range table comes from the configuration option
    [scanner_position_ranges]; [_line_length] is [None]. *)
Definition init (config : list (list float)) : adapter :=
  {| _scanner_position_ranges := config;
     _position_range := None;
     _middle_xyz_pos := None;
     _current_position := None;
     _line_length := None;
     _dwell_cnt_bins := None;
     _dwell_delay := None |}.

(** ** The monad of the methods *)

Section Interfuse.

Context (env : environment).

Record machine := {
  self : adapter;
  world : World env;
  trace : list event;
  logged : list (log_level * string);
}.

Definition M (A : Type) : Type := machine → outcome A * machine.

#[global] Instance M_ret : MRet M := λ A a s, (Ret a, s).

#[global] Instance M_bind : MBind M := λ A B f m s,
  match m s with
  | (Ret a, s') => f a s'
  | (Raise e, s') => (Raise e, s')
  end.

Definition raise {A} (e : exn) : M A := λ s, (Raise e, s).

(** [try: body / except <classes in catches>: handler]; an exception of
    another class goes through. *)
Definition try_except {A} (body : M A) (catches : exn → bool)
    (handler : exn → M A) : M A := λ s,
  match body s with
  | (Ret a, s') => (Ret a, s')
  | (Raise e, s') => if catches e then handler e s' else (Raise e, s')
  end.

Definition read_self {A} (f : adapter → A) : M A := λ s, (Ret (f (self s)), s).

Definition update_self (f : adapter → adapter) : M () := λ s,
  (Ret (), {| self := f (self s); world := world s;
              trace := trace s; logged := logged s |}).

(** Reading an attribute that may not be bound. *)
Definition read_attr {A} (f : adapter → option A) : M A :=
  o ← read_self f;
  match o with
  | Some v => mret v
  | None => raise AttributeError
  end.

Definition log_msg (lvl : log_level) (msg : string) : M () := λ s,
  (Ret (), {| self := self s; world := world s; trace := trace s;
              logged := logged s ++ [(lvl, msg)] |}).

(** A call to a collaborator: it is recorded, then it acts on the world. *)
Definition device_call {A} (ev : event) (f : World env → outcome A * World env)
    : M A := λ s,
  let '(r, w) := f (world s) in
  (r, {| self := self s; world := w; trace := trace s ++ [ev];
         logged := logged s |}).

(** Indexing a list: [IndexError] out of range. *)
Definition py_index {A} (l : list A) (i : nat) : M A :=
  match l !! i with
  | Some v => mret v
  | None => raise IndexError
  end.

(** ** Position range accessors *)

(** What a caller may pass as [myrange]: nothing ([None]), an object that
    is none of frozenset, list, set, tuple, ndarray, or a list of rows. *)
Inductive range_arg :=
  | RangeNone
  | RangeNotArray
  | RangeTable (t : list (list float)).

Definition get_position_range : M (list (list float)) :=
  read_self _scanner_position_ranges.

(** ['...{0:d}...'.format(pos)] with [pos] a list: the integer format code
    is refused by [list.__format__], so building the message raises
    [TypeError] before [log.error] is called. *)
Definition format_d_of_list (pos : list float) : M string := raise TypeError.

(** The loop [for pos in myrange] of [set_position_range]; [Some c] when
    the body returns [c] from the method. *)
Fixpoint check_range_rows (rows : list (list float)) : M (option Z) :=
  match rows with
  | [] => mret None
  | pos :: rest =>
      if negb (length pos =? 2)%nat then
        msg ← format_d_of_list pos;
        log_msg LogError msg;;
        mret (Some (-1)%Z)
      else
        p0 ← py_index pos 0;
        p1 ← py_index pos 1;
        if PrimFloat.ltb p1 p0 then
          msg ← format_d_of_list pos;
          log_msg LogError msg;;
          mret (Some (-1)%Z)
        else check_range_rows rest
  end.

Definition default_range : list (list float) :=
  [[0%float; 1e-6%float]; [0%float; 1e-6%float];
   [0%float; 1e-6%float]; [0%float; 1e-6%float]].

Definition set_position_range (myrange : range_arg) : M Z :=
  let myrange :=
    match myrange with
    | RangeNone => RangeTable default_range
    | other => other
    end in
  match myrange with
  | RangeNone | RangeNotArray =>
      log_msg LogError "Given range is no array type.";;
      mret (-1)%Z
  | RangeTable t =>
      if negb (length t =? 4)%nat then
        log_msg LogError "Given range should have dimension 4.";;
        mret (-1)%Z
      else
        r ← check_range_rows t;
        match r with
        | Some c => mret c
        | None =>
            update_self (set_scanner_position_ranges t);;
            mret 0%Z
        end
  end.


(** ** Position set and get *)

(** [self._current_position[i] = np.float(v)]: an index assignment into
    the array, which converts the float to the element type of the array
    (an [int64] array keeps the integer part only, and raises when the
    float has none that fits), or into the list shared with
    [_middle_xyz_pos]. *)
Definition store_position (i : nat) (v : float) : M () :=
  p ← read_attr _current_position;
  match p with
  | PosNdarray arr =>
      if (i <? length arr)%nat
      then update_self (set_current_position (PosNdarray (<[i:=v]> arr)))
      else raise IndexError
  | PosNdarrayInt arr =>
      if (i <? length arr)%nat
      then
        match float_to_int64 v with
        | inr n =>
            update_self (set_current_position (PosNdarrayInt (<[i:=n]> arr)))
        | inl e => raise e
        end
      else raise IndexError
  | PosNone0d => raise IndexError
  | PosMiddleList =>
      mid ← read_attr _middle_xyz_pos;
      if (i <? length mid)%nat
      then update_self (set_middle_xyz_pos (<[i:=v]> mid))
      else raise IndexError
  end.

(** [self._current_position[i]]: the entry as the array holds it. *)
Definition load_position (i : nat) : M number :=
  p ← read_attr _current_position;
  match p with
  | PosNdarray arr => cur ← py_index arr i; mret (PyFloat cur)
  | PosNdarrayInt arr => cur ← py_index arr i; mret (PyInt cur)
  | PosNone0d => raise IndexError
  | PosMiddleList =>
      mid ← read_attr _middle_xyz_pos;
      cur ← py_index mid i;
      mret (PyFloat cur)
  end.

(** [self._scanner_position_ranges[i][j]] *)
Definition range_bound (i j : nat) : M float :=
  ranges ← read_self _scanner_position_ranges;
  row ← py_index ranges i;
  py_index row j.

(** One of the four blocks [if x is not None: ...] of
    [scanner_set_position]: [inl c] when the block returns [c] from the
    method, [inr move_dict] when control goes on to the next block.  The
    chained comparison [lo <= v <= hi] reads [hi] only when [lo <= v]. *)
Definition set_axis (i : nat) (key : string) (msg : string)
    (v : option float) (move_dict : gmap string number)
    : M (Z + gmap string number) :=
  match v with
  | None => mret (inr move_dict)
  | Some v =>
      lo ← range_bound i 0;
      inside ← (if PrimFloat.leb lo v
                then hi ← range_bound i 1; mret (PrimFloat.leb v hi)
                else mret false);
      if negb inside then
        log_msg LogError msg;;
        mret (inl (-1)%Z)
      else
        store_position i v;;
        cur ← load_position i;
        mret (inr (<[key:=cur]> move_dict))
  end.

Definition scanner_set_position (x y z a : option float) : M Z :=
  let move_dict : gmap string number := ∅ in
  r ← set_axis 0 "x" "You want to set x-axis out of scan-config range." x
        move_dict;
  match r with
  | inl c => mret c
  | inr move_dict =>
  r ← set_axis 1 "y" "You want to set y-axis out of scan-config range." y
        move_dict;
  match r with
  | inl c => mret c
  | inr move_dict =>
  r ← set_axis 2 "z" "You want to set z-axis out of scan-config range." z
        move_dict;
  match r with
  | inl c => mret c
  | inr move_dict =>
  r ← set_axis 3 "a" "You want to set a-axis out of scan-config range." a
        move_dict;
  match r with
  | inl c => mret c
  | inr move_dict =>
      try_except
        (device_call (EvMoveAbs move_dict) (stage_move_abs env move_dict);;
         mret 0%Z)
        (λ _, true)
        (λ _, log_msg LogError "Logic interfuse can't set stage position.";;
              mret (-1)%Z)
  end end end end.

(** [self._current_position.tolist()]: the list of the array's entries,
    floats or integers after the element type; [None] for the 0-d array of
    [None]; a list has no [tolist]. *)
Definition get_scanner_position : M (option (list number)) :=
  p ← read_attr _current_position;
  match p with
  | PosNdarray arr => mret (Some (PyFloat <$> arr))
  | PosNdarrayInt arr => mret (Some (PyInt <$> arr))
  | PosNone0d => mret None
  | PosMiddleList => raise AttributeError
  end.

Definition on_target : M Z := device_call EvOnTarget (stage_on_target env).

Definition set_up_line (length : nat) : M Z :=
  update_self (set_line_length length);;
  mret 0%Z.

Definition set_dwell_count_bins (num_of_bins : Z) : M () :=
  update_self (set_dwell_cnt_bins_attr num_of_bins).

Definition set_dwell_delay (delay : float) : M () :=
  update_self (set_dwell_delay_attr delay).

Definition get_dwell_count_bins : M Z := read_attr _dwell_cnt_bins.

Definition get_dwell_delay : M float := read_attr _dwell_delay.

(** ** Line scan *)

(** What a caller may pass as [line_path]: an object that is none of
    frozenset, list, set, tuple, ndarray; a list of rows; a 1-d array; a
    2-d array of [nrows] x [ncols] floats. *)
Inductive line_arg :=
  | LineNotArray
  | LineList (rows : list (list float))
  | LineNdarray1 (v : list float)
  | LineNdarray2 (nrows ncols : nat) (cell : nat → nat → float).

(** What [scan_line] returns: a 1-d array (the sentinel) or a 2-d array
    given by its rows. *)
Inductive scan_result :=
  | Array1 (v : list float)
  | Array2 (rows : list (list float)).

(** [np.shape(line_path)[1]]: the shape of a 1-d array, of an empty list
    or of a list of rows of different lengths has no second entry. *)
Definition shape_1 (line_path : line_arg) : M nat :=
  match line_path with
  | LineNotArray => raise IndexError
  | LineList [] => raise IndexError
  | LineList (r0 :: rest) =>
      if forallb (λ r, length r =? length r0)%nat rest
      then mret (length r0)
      else raise IndexError
  | LineNdarray1 _ => raise IndexError
  | LineNdarray2 _ ncols _ => mret ncols
  end.

(** [line_path[:, i]]: column [i] of a 2-d array; a list cannot be indexed
    by a tuple. *)
Definition column (line_path : line_arg) (i : nat) : M (list float) :=
  match line_path with
  | LineNdarray2 nrows ncols cell =>
      if (i <? ncols)%nat
      then mret ((λ j, cell j i) <$> seq 0 nrows)
      else raise IndexError
  | LineNdarray1 _ => raise IndexError
  | LineList _ | LineNotArray => raise TypeError
  end.

(** [l[start:]] *)
Definition py_slice_from {A} (start : Z) (l : list A) : list A :=
  let n := Z.of_nat (length l) in
  let first := if (start <? 0)%Z then Z.max (n + start) 0 else Z.min start n in
  drop (Z.to_nat first) l.

(** [self._counter_logic.countdata[0, -self._dwell_cnt_bins:]] *)
Definition read_counts : M (list float) :=
  countdata ← device_call EvCountdata
                 (λ w, (Ret (counter_countdata env w), w));
  bins ← read_attr _dwell_cnt_bins;
  channel ← py_index countdata 0;
  mret (py_slice_from (- bins) channel).

(** The body of the loop [for i in range(self._line_length)]. *)
Definition scan_pixel (line_path : line_arg) (i : nat)
    (count_data : list float) : M (list float) :=
  coords ← column line_path i;
  x ← py_index coords 0;
  y ← py_index coords 1;
  z ← py_index coords 2;
  a ← py_index coords 3;
  scanner_set_position (Some x) (Some y) (Some z) (Some a);;
  (if (i =? 0)%nat then
     on_target;; mret ()
   else
     delay ← read_attr _dwell_delay;
     device_call (EvSleep delay) (time_sleep env delay));;
  this_count_data ← read_counts;
  mret (<[i := np_mean env this_count_data]> count_data).

Fixpoint scan_pixels (line_path : line_arg) (indices : list nat)
    (count_data : list float) : M (list float) :=
  match indices with
  | [] => mret count_data
  | i :: rest =>
      count_data ← scan_pixel line_path i count_data;
      scan_pixels line_path rest count_data
  end.

Definition scan_line (line_path : line_arg) : M scan_result :=
  match line_path with
  | LineNotArray =>
      log_msg LogError
        "Logic interfuse: The given line to scan is not the right format or array type.";;
      mret (Array1 [(-1)%float])
  | _ =>
      n ← shape_1 line_path;
      set_up_line n;;
      line_length ← read_attr _line_length;
      let count_data := replicate line_length 0%float in
      count_data ← scan_pixels line_path (seq 0 line_length) count_data;
      mret (Array2 ((λ c, [c]) <$> count_data))
  end.

(** ** Activation *)

Definition dict_get {V} (d : gmap string V) (key : string) : M V :=
  match d !! key with
  | Some v => mret v
  | None => raise KeyError
  end.

Definition _constraints_to_range (hw_constraints : gmap string (gmap string float))
    (axis : string) : M (list float) :=
  if negb (bool_decide (axis ∈ ["x"; "y"; "z"])) then mret [0%float; 0%float]
  else
    c ← dict_get hw_constraints axis;
    match c !! "pos_min" with
    | None => mret [0%float; 0%float]
    | Some pos_min =>
        c ← dict_get hw_constraints axis;
        match c !! "pos_max" with
        | None => mret [0%float; 0%float]
        | Some pos_max => mret [pos_min; pos_max]
        end
    end.

(** [==] on lists of lists of floats. *)
Fixpoint row_eqb (r1 r2 : list float) : bool :=
  match r1, r2 with
  | [], [] => true
  | a :: r1, b :: r2 => PrimFloat.eqb a b && row_eqb r1 r2
  | _, _ => false
  end.

Fixpoint table_eqb (t1 t2 : list (list float)) : bool :=
  match t1, t2 with
  | [], [] => true
  | a :: t1, b :: t2 => row_eqb a b && table_eqb t1 t2
  | _, _ => false
  end.

(** [if axis in hw_constraints.keys(): pos_range[i] = ...] *)
Definition fill_range (hw_constraints : gmap string (gmap string float))
    (i : nat) (axis : string) (pos_range : list (list float))
    : M (list (list float)) :=
  match hw_constraints !! axis with
  | Some _ =>
      r ← _constraints_to_range hw_constraints axis;
      mret (<[i:=r]> pos_range)
  | None => mret pos_range
  end.

Definition _get_position_range_init : M () :=
  hw_constraints ← device_call EvGetConstraints (stage_get_constraints env);
  let pos_range := replicate 4 [0%float; 0%float] in
  pos_range ← fill_range hw_constraints 0 "x" pos_range;
  pos_range ← fill_range hw_constraints 1 "y" pos_range;
  pos_range ← fill_range hw_constraints 2 "z" pos_range;
  pos_range ← fill_range hw_constraints 3 "a" pos_range;
  let stage_range := take 3 pos_range in
  ranges ← read_self _scanner_position_ranges;
  let scan_range := take 3 ranges in
  if table_eqb scan_range stage_range then
    log_msg LogDebug
      "Config interfuse range xyz: hardware stage constraints == logic scan range."
  else
    log_msg LogWarning
      "Config interfuse warning: hardware stage constraints range NOT equal to logic scan range.".

Definition is_KeyError (e : exn) : bool :=
  match e with KeyError => true | _ => false end.

(** [pos_dict = self._stage_hw.get_pos()] and the list built from it; its
    last entry is the integer [0]. *)
Definition read_stage_position : M (option (list number)) :=
  pos_dict ← device_call EvGetPos (stage_get_pos env);
  x ← dict_get pos_dict "x";
  y ← dict_get pos_dict "y";
  z ← dict_get pos_dict "z";
  mret (Some [x; y; z; PyInt int64_zero]).

(** The result is [None] where the Python method falls off its end. *)
Definition _get_scanner_position_init : M (option (list number)) :=
  try_except read_stage_position (λ _, true)
    (λ e,
       if is_KeyError e then
         log_msg LogError
           "Logic Interfuse can't get stage position from hardware module. Check device connection!";;
         mret None
       else
         device_call (EvSleep 0.1%float) (time_sleep env 0.1%float);;
         try_except read_stage_position is_KeyError
           (λ _,
              log_msg LogError
                "Logic Interfuse can't get stage position from hardware module, twice. Check device connection!";;
              mret None)).

(** The entries of a list of integers only. *)
Fixpoint all_ints (l : list number) : option (list int64) :=
  match l with
  | [] => Some []
  | PyInt n :: rest => cons n <$> all_ints rest
  | PyFloat _ :: _ => None
  end.

(** [np.array(position)]: a list of integers gives an [int64] array; a
    list with a float in it gives a [float64] array, its integers converted
    to floats; the empty list gives an empty [float64] array; [None] gives
    a 0-d array. *)
Definition np_array (position : option (list number)) : position_store :=
  match position with
  | Some [] => PosNdarray []
  | Some l =>
      match all_ints l with
      | Some ints => PosNdarrayInt ints
      | None => PosNdarray (number_to_float <$> l)
      end
  | None => PosNone0d
  end.

(** [for i in range(4): self._middle_xyz_pos[i] = 0.5 * (...)] *)
Fixpoint fill_middle (indices : list nat) : M () :=
  match indices with
  | [] => mret ()
  | i :: rest =>
      position_range ← read_attr _position_range;
      row ← py_index position_range i;
      lo ← py_index row 0;
      row ← py_index position_range i;
      hi ← py_index row 1;
      middle ← read_attr _middle_xyz_pos;
      (if (i <? length middle)%nat
       then update_self (set_middle_xyz_pos
                           (<[i := (0.5 * (lo + hi))%float]> middle))
       else raise IndexError);;
      fill_middle rest
  end.

Definition on_activate : M Z :=
  _get_position_range_init;;
  position_range ← get_position_range;
  update_self (set_position_range_attr position_range);;
  update_self (set_middle_xyz_pos [0%float; 0%float; 0%float; 0%float]);;
  fill_middle (seq 0 4);;
  returned ← try_except
    (position ← _get_scanner_position_init;
     update_self (set_current_position (np_array position));;
     mret None)
    (λ _, true)
    (λ _,
       update_self (set_current_position PosMiddleList);;
       log_msg LogError "Logic interfuse activation: failed ! Set cross to middle.";;
       mret (Some (-1)%Z));
  match returned with
  | Some c => mret c
  | None =>
      update_self (set_dwell_cnt_bins_attr 1);;
      update_self (set_dwell_delay_attr 0.02%float);;
      mret 0%Z
  end.

End Interfuse.

Arguments self {env} _.
Arguments world {env} _.
Arguments trace {env} _.
Arguments logged {env} _.

(** ** A laboratory to run the methods in

    A scripted stage and counter: [move_abs] and [on_target] succeed while
    the stage is up; [get_pos] gives its scripted answers in turn; every
    accepted move appends the commanded x (0 when x is not in the command)
    to channel 0 of the count buffer, so that the counts tell the pixels
    apart. *)

Module Lab.

Record lab := {
  stage_up : bool;
  pos_answers : list (outcome (gmap string number));
  counts : list (list float);
}.

Definition record_move (move_dict : gmap string number) (w : lab) : lab :=
  {| stage_up := stage_up w;
     pos_answers := pos_answers w;
     counts :=
       match counts w with
       | [] => []
       | ch0 :: others =>
           (ch0 ++ [default 0%float (number_to_float <$> move_dict !! "x")])
             :: others
       end |}.

Definition next_answer (w : lab) : outcome (gmap string number) * lab :=
  match pos_answers w with
  | [] => (Raise HardwareError, w)
  | r :: rest =>
      (r, {| stage_up := stage_up w; pos_answers := rest; counts := counts w |})
  end.

(** Sum from left to right, divided by the number of entries. *)
Definition mean (l : list float) : float :=
  (foldl PrimFloat.add 0 l / PrimFloat.of_uint63 (Uint63.of_Z (Z.of_nat (length l))))%float.

Definition env : environment := {|
  World := lab;
  stage_get_constraints w := (Ret ∅, w);
  stage_get_pos := next_answer;
  stage_move_abs d w :=
    if stage_up w then (Ret (), record_move d w) else (Raise HardwareError, w);
  stage_on_target w :=
    if stage_up w then (Ret 0%Z, w) else (Raise HardwareError, w);
  time_sleep _ w := (Ret (), w);
  counter_countdata := counts;
  np_mean := mean;
|}.

(** The range table of the example configuration. *)
Definition ranges : list (list float) :=
  [[0%float; 300e-6%float]; [0%float; 300e-6%float];
   [150e-6%float; 160e-6%float]; [(-10)%float; 10%float]].

Definition start : list float := [0%float; 0%float; 155e-6%float; 0%float].

(** An adapter as a successful activation leaves it, at position [start]. *)
Definition activated : adapter :=
  {| _scanner_position_ranges := ranges;
     _position_range := Some ranges;
     _middle_xyz_pos := Some [150e-6%float; 150e-6%float; 155e-6%float; 0%float];
     _current_position := Some (PosNdarray start);
     _line_length := None;
     _dwell_cnt_bins := Some 1%Z;
     _dwell_delay := Some 0.02%float |}.

Definition bench (a : adapter) (w : lab) : machine env :=
  Build_machine env a w [] [].

Definition stage_ok : lab :=
  {| stage_up := true; pos_answers := []; counts := [[7%float]] |}.

Definition stage_down : lab :=
  {| stage_up := false; pos_answers := []; counts := [[7%float]] |}.

Definition nth_row (rows : list (list float)) (j i : nat) : float :=
  default 0%float (rows !! j ≫= λ r, r !! i).

End Lab.

(** * Properties *)

(** ** Order facts on binary64 numbers *)

Module FloatOrder.

Lemma compare_cont_swap (ma mb : positive) :
  Pos.compare_cont Eq mb ma = CompOpp (Pos.compare_cont Eq ma mb).
Proof. now rewrite Pos.compare_cont_antisym. Qed.

Lemma SFcompare_Lt_swap (a b : spec_float) :
  SFcompare a b = Some Lt → SFcompare b a = Some Gt.
Proof.
  destruct a as [sa|sa| |sa ma ea], b as [sb|sb| |sb mb eb]; simpl;
    try discriminate; try (destruct sa; discriminate);
    try (destruct sb; discriminate);
    try (destruct sa, sb; (discriminate || reflexivity)).
  destruct sa, sb; try discriminate; try reflexivity;
    rewrite (Z.compare_antisym ea eb), (compare_cont_swap ma mb);
    destruct (ea ?= eb)%Z eqn:He; simpl; try discriminate; try reflexivity;
    destruct (Pos.compare_cont Eq ma mb); simpl; intros; congruence.
Qed.

(** [x < y] excludes [y <= x], also when a NaN is involved. *)
Lemma ltb_not_leb (x y : float) :
  PrimFloat.ltb x y = true → PrimFloat.leb y x = false.
Proof.
  rewrite ltb_spec, leb_spec. unfold SFltb, SFleb.
  destruct (SFcompare (Prim2SF x) (Prim2SF y)) as [[]|] eqn:H; try discriminate.
  intros _. now rewrite (SFcompare_Lt_swap _ _ H).
Qed.

Lemma leb_not_ltb (x y : float) :
  PrimFloat.leb x y = true → PrimFloat.ltb y x = false.
Proof.
  intros H. destruct (PrimFloat.ltb y x) eqn:E; [|reflexivity].
  apply ltb_not_leb in E. congruence.
Qed.

End FloatOrder.


(** ** Running the monad *)

Section Running.

Context {env : environment}.
Implicit Types s : machine env.

Lemma run_bind {A B} (m : M env A) (f : A → M env B) s :
  (m ≫= f) s =
  match m s with
  | (Ret a, s') => f a s'
  | (Raise e, s') => (Raise e, s')
  end.
Proof. reflexivity. Qed.

Lemma run_bind_ret {A B} (m : M env A) (f : A → M env B) s a s' :
  m s = (Ret a, s') → (m ≫= f) s = f a s'.
Proof. intros H. now rewrite run_bind, H. Qed.

Lemma run_bind_raise {A B} (m : M env A) (f : A → M env B) s e s' :
  m s = (Raise e, s') → (m ≫= f) s = (Raise e, s').
Proof. intros H. now rewrite run_bind, H. Qed.

Lemma run_py_index {A} (l : list A) i v s :
  l !! i = Some v → py_index env l i s = (Ret v, s).
Proof. unfold py_index. now intros ->. Qed.

Lemma run_read_attr {A} (f : adapter → option A) v s :
  f (self s) = Some v → read_attr env f s = (Ret v, s).
Proof.
  intros H. unfold read_attr. rewrite run_bind. unfold read_self.
  now rewrite H.
Qed.

Lemma machine_eta s :
  Build_machine env (self s) (world s) (trace s) (logged s) = s.
Proof. now destruct s. Qed.

End Running.

(** ** Position range: [set_position_range] and [get_position_range] *)

Section PositionRange.

Context {env : environment}.
Implicit Types s : machine env.

(** A row passes the loop of [set_position_range]. *)
Definition row_accepted (pos : list float) : bool :=
  match pos with
  | [p0; p1] => negb (PrimFloat.ltb p1 p0)
  | _ => false
  end.

Lemma check_range_rows_run rows s :
  check_range_rows env rows s =
  (if forallb row_accepted rows then Ret None else Raise TypeError, s).
Proof.
  induction rows as [|pos rest IH]; [reflexivity|].
  destruct pos as [|p0 [|p1 [|p2 more]]]; try reflexivity.
  cbn [check_range_rows length Nat.eqb negb forallb row_accepted].
  rewrite (run_bind_ret _ _ s p0 s) by reflexivity.
  rewrite (run_bind_ret _ _ s p1 s) by reflexivity.
  destruct (PrimFloat.ltb p1 p0); [reflexivity|]. simpl. apply IH.
Qed.

(** The tables the specification calls valid: four rows, each a pair
    with min <= max. *)
Definition valid_range_table (t : list (list float)) : Prop :=
  length t = 4 ∧
  ∀ pos, pos ∈ t → ∃ lo hi, pos = [lo; hi] ∧ PrimFloat.leb lo hi = true.

(** A row that the specification calls invalid: not a pair, or a pair with
    min > max (the comparison [max < min] of binary64 numbers). *)
Definition bad_row (pos : list float) : Prop :=
  length pos ≠ 2 ∨ ∃ lo hi, pos = [lo; hi] ∧ PrimFloat.ltb hi lo = true.

Lemma valid_rows_accepted t :
  (∀ pos, pos ∈ t → ∃ lo hi, pos = [lo; hi] ∧ PrimFloat.leb lo hi = true) →
  forallb row_accepted t = true.
Proof.
  intros H. apply forallb_forall. intros pos Hin.
  apply list_elem_of_In in Hin. destruct (H pos Hin) as (lo & hi & -> & Hle).
  simpl. now rewrite (FloatOrder.leb_not_ltb _ _ Hle).
Qed.

Lemma invalid_row_rejected t pos :
  pos ∈ t → bad_row pos → forallb row_accepted t = false.
Proof.
  intros Hin Hbad. apply not_true_is_false. intros Hall.
  rewrite forallb_forall in Hall.
  specialize (Hall pos (proj1 (list_elem_of_In _ _) Hin)).
  destruct Hbad as [Hlen|(lo & hi & -> & Hlt)].
  - destruct pos as [|p0 [|p1 [|p2 more]]]; simpl in *; congruence.
  - simpl in Hall. rewrite Hlt in Hall. discriminate.
Qed.

(** A valid range table is accepted with code 0 and is the table that
    [get_position_range] returns next. *)
Lemma set_position_range_valid t s :
  valid_range_table t →
  ∃ s', set_position_range env (RangeTable t) s = (Ret 0%Z, s') ∧
        get_position_range env s' = (Ret t, s').
Proof.
  intros [Hlen Hrows]. eexists. split.
  - unfold set_position_range. rewrite Hlen. simpl.
    rewrite run_bind, check_range_rows_run, (valid_rows_accepted _ Hrows).
    reflexivity.
  - reflexivity.
Qed.

(** A table that has not four rows is refused with the error code and one
    logged line; the stored table is unchanged. *)
Lemma set_position_range_wrong_count t s :
  length t ≠ 4 →
  set_position_range env (RangeTable t) s =
  (Ret (-1)%Z,
   Build_machine env (self s) (world s) (trace s)
     (logged s ++ [(LogError, "Given range should have dimension 4.")])).
Proof.
  intros Hlen. unfold set_position_range.
  destruct (Nat.eqb_spec (length t) 4) as [E|_]; [contradiction|].
  reflexivity.
Qed.

(** A table of four rows with a row that is not a pair or has min > max:
    building the error message raises [TypeError]; no error code is
    returned, nothing is logged and nothing is stored. *)
Lemma set_position_range_bad_row t pos s :
  length t = 4 → pos ∈ t → bad_row pos →
  set_position_range env (RangeTable t) s = (Raise TypeError, s).
Proof.
  intros Hlen Hin Hbad. unfold set_position_range. rewrite Hlen. simpl.
  by rewrite run_bind, check_range_rows_run,
    (invalid_row_rejected _ _ Hin Hbad).
Qed.

(** C9. [set_position_range()] with no argument (or [None]) returns 0 and
    stores the default table [[0, 1e-6]] x 4, whatever the range stored
    before; nothing is logged and no device is called; the next
    [get_position_range] returns the default table. *)
Theorem set_position_range_none_installs_default s :
  let s' := Build_machine env
              (set_scanner_position_ranges default_range (self s))
              (world s) (trace s) (logged s) in
  set_position_range env RangeNone s = (Ret 0%Z, s') ∧
  get_position_range env s' = (Ret default_range, s').
Proof. split; reflexivity. Qed.

End PositionRange.

(** ** Position: [scanner_set_position] and [get_scanner_position] *)

Section Position.

Context {env : environment}.
Implicit Types s : machine env.

Definition with_position (pos : list float) s : machine env :=
  Build_machine env (set_current_position (PosNdarray pos) (self s))
    (world s) (trace s) (logged s).

(** The state with the position bound to the array [p]. *)
Definition with_store (p : position_store) s : machine env :=
  Build_machine env (set_current_position p (self s))
    (world s) (trace s) (logged s).

Definition with_log (lvl : log_level) (msg : string) s : machine env :=
  Build_machine env (self s) (world s) (trace s) (logged s ++ [(lvl, msg)]).

(** The bounds of axis [i] in a range table. *)
Definition bounds (ranges : list (list float)) (i : nat) (lo hi : float) : Prop :=
  ∃ row, ranges !! i = Some row ∧ row !! 0 = Some lo ∧ row !! 1 = Some hi.

(** [v] passes the inclusive check of axis [i]; [v] is strictly outside
    the bounds of axis [i]. *)
Definition in_range (ranges : list (list float)) (i : nat) (v : float) : Prop :=
  ∃ lo hi, bounds ranges i lo hi ∧
           PrimFloat.leb lo v = true ∧ PrimFloat.leb v hi = true.

Definition outside (ranges : list (list float)) (i : nat) (v : float) : Prop :=
  ∃ lo hi, bounds ranges i lo hi ∧
           (PrimFloat.ltb v lo = true ∨ PrimFloat.ltb hi v = true).

(** The number of entries of a position array. *)
Definition array_length (p : position_store) : option nat :=
  match p with
  | PosNdarray v => Some (length v)
  | PosNdarrayInt v => Some (length v)
  | PosNone0d | PosMiddleList => None
  end.

(** Whether the position is an [int64] array. *)
Definition int_array (p : option position_store) : bool :=
  match p with
  | Some (PosNdarrayInt _) => true
  | _ => false
  end.

(** The integer part of a float that has one within the 64-bit integers
    (0 stands in for the others, which no array stores). *)
Definition int_part (v : float) : int64 :=
  match float_to_int64 v with
  | inr n => n
  | inl _ => int64_zero
  end.

(** The float [v] can be written to an array: to a [float64] array always,
    to an [int64] array when [v] has an integer part that fits. *)
Definition storable (int : bool) (v : float) : Prop :=
  int = true → ∃ n, float_to_int64 v = inr n.

(** The entry that reads back after the float [v] has been written to the
    position: its integer part in an [int64] array, [v] itself in a
    [float64] array and in the list of midpoints. *)
Definition held (p : option position_store) (v : float) : number :=
  if int_array p then PyInt (int_part v) else PyFloat v.

(** The position array after [self._current_position[i] = v]. *)
Definition write_array (i : nat) (v : float) (p : position_store)
    : position_store :=
  match p with
  | PosNdarray arr => PosNdarray (<[i:=v]> arr)
  | PosNdarrayInt arr => PosNdarrayInt (<[i:=int_part v]> arr)
  | other => other
  end.

(** The adapter holds a position array of four entries: a [float64] array,
    or an [int64] array to which every coordinate within the configured
    ranges can be written. *)
Definition position_ok s : Prop :=
  ∃ p, _current_position (self s) = Some p ∧ array_length p = Some 4 ∧
       ∀ i v, in_range (_scanner_position_ranges (self s)) i v →
              storable (int_array (Some p)) v.

(** The adapter holds a range table with the two bounds of each of the
    four axes. *)

Definition ranges_ok s : Prop :=
  ∀ i, i < 4 → ∃ lo hi, bounds (_scanner_position_ranges (self s)) i lo hi.

(** What a step leaves alone when it calls no device and changes no
    setting (it may change the position and the log). *)
Record quiet s s' : Prop := {
  quiet_trace : trace s' = trace s;
  quiet_world : world s' = world s;
  quiet_ranges :
    _scanner_position_ranges (self s') = _scanner_position_ranges (self s);
  quiet_bins : _dwell_cnt_bins (self s') = _dwell_cnt_bins (self s);
  quiet_delay : _dwell_delay (self s') = _dwell_delay (self s);
}.

Lemma quiet_refl s : quiet s s.
Proof. by split. Qed.

Lemma quiet_trans s1 s2 s3 : quiet s1 s2 → quiet s2 s3 → quiet s1 s3.
Proof. intros [] []. split; congruence. Qed.

Lemma with_position_id pos s :
  _current_position (self s) = Some (PosNdarray pos) → with_position pos s = s.
Proof.
  destruct s as [a w t l]. destruct a. simpl. intros ->. reflexivity.
Qed.

Lemma run_range_bound ranges i j row v s :
  _scanner_position_ranges (self s) = ranges →
  ranges !! i = Some row → row !! j = Some v →
  range_bound env i j s = (Ret v, s).
Proof.
  intros <- Hrow Hv. unfold range_bound.
  rewrite (run_bind_ret _ _ s (_scanner_position_ranges (self s)) s)
    by reflexivity.
  rewrite (run_bind_ret _ _ _ _ _ (run_py_index _ _ _ _ Hrow)).
  by apply run_py_index.
Qed.

Lemma run_store_load i v pos s {B} (k : number → M env B) :
  _current_position (self s) = Some (PosNdarray pos) → i < length pos →
  (store_position env i v;; cur ← load_position env i; k cur) s =
  k (PyFloat v) (with_position (<[i:=v]> pos) s).
Proof.
  intros Hpos Hi. rewrite run_bind. unfold store_position at 1.
  rewrite (run_bind_ret _ _ _ _ _ (run_read_attr _ _ _ Hpos)).
  destruct (Nat.ltb_spec i (length pos)) as [_|]; [|lia].
  unfold update_self at 1. fold (with_position (<[i:=v]> pos) s).
  rewrite run_bind. unfold load_position.
  rewrite (run_bind_ret _ _ (with_position (<[i:=v]> pos) s)
             (PosNdarray (<[i:=v]> pos)) (with_position (<[i:=v]> pos) s))
    by reflexivity.
  rewrite (run_bind_ret _ _ _ v (with_position (<[i:=v]> pos) s));
    [reflexivity|].
  apply run_py_index. by apply list_lookup_insert_eq.
Qed.

Lemma with_store_id p s :
  _current_position (self s) = Some p → with_store p s = s.
Proof.
  destruct s as [a w t l]. destruct a. simpl. intros ->. reflexivity.
Qed.

Lemma array_length_write_array i v p :
  array_length (write_array i v p) = array_length p.
Proof. destruct p; simpl; by rewrite ?length_insert. Qed.

Lemma int_array_write_array i v p :
  int_array (Some (write_array i v p)) = int_array (Some p).
Proof. by destruct p. Qed.

Lemma run_store_load_array i v p n s {B} (k : number → M env B) :
  _current_position (self s) = Some p → array_length p = Some n → i < n →
  storable (int_array (Some p)) v →
  (store_position env i v;; cur ← load_position env i; k cur) s =
  k (held (Some p) v) (with_store (write_array i v p) s).
Proof.
  intros Hpos Hlen Hi Hst.
  destruct p as [pos| | |pos]; try discriminate; simpl in Hlen;
    inversion Hlen; subst n.
  - by apply run_store_load.
  - destruct (Hst eq_refl) as [m Hm].
    assert (int_part v = m) as Hpart by (unfold int_part; by rewrite Hm).
    unfold held, write_array. cbn [int_array]. rewrite Hpart.
    rewrite run_bind. unfold store_position at 1.
    rewrite (run_bind_ret _ _ _ _ _ (run_read_attr _ _ _ Hpos)).
    destruct (Nat.ltb_spec i (length pos)) as [_|]; [|lia].
    rewrite Hm. unfold update_self at 1.
    fold (with_store (PosNdarrayInt (<[i:=m]> pos)) s).
    set (s1 := with_store (PosNdarrayInt (<[i:=m]> pos)) s).
    rewrite run_bind. unfold load_position.
    rewrite (run_bind_ret _ _ s1 (PosNdarrayInt (<[i:=m]> pos)) s1)
      by reflexivity.
    rewrite (run_bind_ret _ _ _ m s1); [reflexivity|].
    apply run_py_index. by apply list_lookup_insert_eq.
Qed.

(** A provided coordinate that passes the check is written to the
    position array and entered in the move command as the array holds
    it. *)
Lemma set_axis_accept_array i key msg v move_dict p n s :
  _current_position (self s) = Some p → array_length p = Some n → i < n →
  storable (int_array (Some p)) v →
  in_range (_scanner_position_ranges (self s)) i v →
  set_axis env i key msg (Some v) move_dict s =
  (Ret (inr (<[key:=held (Some p) v]> move_dict)),
   with_store (write_array i v p) s).
Proof.
  intros Hpos Hlen Hi Hst (lo & hi & (row & Hrow & Hlo & Hhi) & Hle1 & Hle2).
  unfold set_axis.
  rewrite (run_bind_ret _ _ _ _ _ (run_range_bound _ _ _ _ _ _ eq_refl Hrow Hlo)).
  rewrite Hle1.
  rewrite run_bind, (run_bind_ret _ _ _ _ _
                       (run_range_bound _ _ _ _ _ _ eq_refl Hrow Hhi)).
  cbn [mret M_ret]. rewrite Hle2. cbn [negb].
  by rewrite (run_store_load_array i v p n s _ Hpos Hlen Hi Hst).
Qed.

(** A provided coordinate that passes the check is written to the
    position array and entered in the move command. *)
Lemma set_axis_accept i key msg v move_dict pos s :
  _current_position (self s) = Some (PosNdarray pos) → i < length pos →
  in_range (_scanner_position_ranges (self s)) i v →
  set_axis env i key msg (Some v) move_dict s =
  (Ret (inr (<[key:=PyFloat v]> move_dict)), with_position (<[i:=v]> pos) s).
Proof.
  intros Hpos Hi (lo & hi & (row & Hrow & Hlo & Hhi) & Hle1 & Hle2).
  unfold set_axis.
  rewrite (run_bind_ret _ _ _ _ _ (run_range_bound _ _ _ _ _ _ eq_refl Hrow Hlo)).
  rewrite Hle1.
  rewrite run_bind, (run_bind_ret _ _ _ _ _
                       (run_range_bound _ _ _ _ _ _ eq_refl Hrow Hhi)).
  cbn [mret M_ret]. rewrite Hle2. cbn [negb].
  by rewrite (run_store_load i v pos s _ Hpos Hi).
Qed.

(** A provided coordinate strictly outside its bounds makes the block
    return the error code; only the log changes. *)
Lemma set_axis_reject i key msg v move_dict s :
  outside (_scanner_position_ranges (self s)) i v →
  set_axis env i key msg (Some v) move_dict s =
  (Ret (inl (-1)%Z), with_log LogError msg s).
Proof.
  intros (lo & hi & (row & Hrow & Hlo & Hhi) & Hout).
  unfold set_axis.
  rewrite (run_bind_ret _ _ _ _ _ (run_range_bound _ _ _ _ _ _ eq_refl Hrow Hlo)).
  destruct (PrimFloat.leb lo v) eqn:Hle1.
  - rewrite run_bind, (run_bind_ret _ _ _ _ _
                         (run_range_bound _ _ _ _ _ _ eq_refl Hrow Hhi)).
    cbn [mret M_ret].
    destruct Hout as [Hlt|Hlt]; apply FloatOrder.ltb_not_leb in Hlt;
      [congruence|]. rewrite Hlt. reflexivity.
  - reflexivity.
Qed.

(** Computations that call no device and change no setting. *)
Definition Quiet {A} (m : M env A) : Prop :=
  ∀ s r s', m s = (r, s') → quiet s s'.

Lemma Quiet_bind {A B} (m : M env A) (f : A → M env B) :
  Quiet m → (∀ a, Quiet (f a)) → Quiet (m ≫= f).
Proof.
  intros Hm Hf s r s'. rewrite run_bind.
  destruct (m s) as [[a|e] s1] eqn:E; intros H.
  - eapply quiet_trans; [by eapply Hm|by eapply Hf].
  - inversion H; subst. by eapply Hm.
Qed.

Lemma Quiet_ret {A} (a : A) : Quiet (mret a : M env A).
Proof. intros s r s' [= <- <-]. apply quiet_refl. Qed.

Lemma Quiet_raise {A} e : Quiet (raise env e : M env A).
Proof. intros s r s' [= <- <-]. apply quiet_refl. Qed.

Lemma Quiet_read_self {A} (f : adapter → A) : Quiet (read_self env f).
Proof. intros s r s' [= <- <-]. apply quiet_refl. Qed.

Lemma Quiet_read_attr {A} (f : adapter → option A) : Quiet (read_attr env f).
Proof.
  apply Quiet_bind; [apply Quiet_read_self|].
  intros [a|]; [apply Quiet_ret|apply Quiet_raise].
Qed.

Lemma Quiet_py_index {A} (l : list A) i : Quiet (py_index env l i).
Proof.
  unfold py_index. destruct (l !! i); [apply Quiet_ret|apply Quiet_raise].
Qed.

Lemma Quiet_log_msg lvl msg : Quiet (log_msg env lvl msg).
Proof. intros s r s' [= <- <-]. by split. Qed.

Lemma Quiet_set_current_position p :
  Quiet (update_self env (set_current_position p)).
Proof. intros s r s' [= <- <-]. by split. Qed.

Lemma Quiet_set_middle_xyz_pos p :
  Quiet (update_self env (set_middle_xyz_pos p)).
Proof. intros s r s' [= <- <-]. by split. Qed.

Lemma Quiet_range_bound i j : Quiet (range_bound env i j).
Proof.
  apply Quiet_bind; [apply Quiet_read_self|]. intros ranges.
  apply Quiet_bind; [apply Quiet_py_index|]. intros row.
  apply Quiet_py_index.
Qed.

Lemma Quiet_store_position i v : Quiet (store_position env i v).
Proof.
  apply Quiet_bind; [apply Quiet_read_attr|]. intros [arr| | |arr].
  - destruct (i <? length arr)%nat;
      [apply Quiet_set_current_position|apply Quiet_raise].
  - apply Quiet_raise.
  - apply Quiet_bind; [apply Quiet_read_attr|]. intros mid.
    destruct (i <? length mid)%nat;
      [apply Quiet_set_middle_xyz_pos|apply Quiet_raise].
  - destruct (i <? length arr)%nat; [|apply Quiet_raise].
    destruct (float_to_int64 v);
      [apply Quiet_raise|apply Quiet_set_current_position].
Qed.

Lemma Quiet_load_position i : Quiet (load_position env i).
Proof.
  apply Quiet_bind; [apply Quiet_read_attr|]. intros [arr| | |arr].
  - apply Quiet_bind; [apply Quiet_py_index|]. intros cur. apply Quiet_ret.
  - apply Quiet_raise.
  - apply Quiet_bind; [apply Quiet_read_attr|]. intros mid.
    apply Quiet_bind; [apply Quiet_py_index|]. intros cur. apply Quiet_ret.
  - apply Quiet_bind; [apply Quiet_py_index|]. intros cur. apply Quiet_ret.
Qed.

(** Whatever the state, a block calls no device and changes no setting. *)
Lemma set_axis_quiet i key msg v move_dict :
  Quiet (set_axis env i key msg v move_dict).
Proof.
  destruct v as [v|]; [|apply Quiet_ret]. unfold set_axis.
  apply Quiet_bind; [apply Quiet_range_bound|]. intros lo.
  apply Quiet_bind.
  - destruct (PrimFloat.leb lo v); [|apply Quiet_ret].
    apply Quiet_bind; [apply Quiet_range_bound|]. intros hi. apply Quiet_ret.
  - intros [|]; cbn [negb].
    + apply Quiet_bind; [apply Quiet_store_position|]. intros _.
      apply Quiet_bind; [apply Quiet_load_position|]. intros cur.
      apply Quiet_ret.
    + apply Quiet_bind; [apply Quiet_log_msg|]. intros _. apply Quiet_ret.
Qed.

(** With a position array and a full range table a block does not raise:
    it rejects with the error code, or accepts and writes the array. *)
Lemma set_axis_total i key msg v move_dict s :
  position_ok s → ranges_ok s → i < 4 →
  ∃ r s', set_axis env i key msg v move_dict s = (Ret r, s') ∧
          position_ok s' ∧ (∀ c, r = inl c → c = (-1)%Z).
Proof.
  intros (pos & Hpos & Hlen & Hfit) Hranges Hi.
  destruct v as [v|]; [|by eexists _, s; repeat split; [exists pos|]].
  destruct (Hranges i Hi) as (lo & hi & row & Hrow & Hlo & Hhi).
  destruct (PrimFloat.leb lo v) eqn:Hle1; [destruct (PrimFloat.leb v hi) eqn:Hle2|].
  - assert (in_range (_scanner_position_ranges (self s)) i v) as Hin.
    { by exists lo, hi; split; [exists row|]. }
    eexists _, _. split; [|split].
    + by apply (set_axis_accept_array i key msg v move_dict pos 4 s Hpos Hlen
                  Hi (Hfit i v Hin)).
    + exists (write_array i v pos).
      rewrite array_length_write_array, int_array_write_array. by repeat split.
    + discriminate.
  - exists (inl (-1)%Z), (with_log LogError msg s). split; [|split].
    + unfold set_axis.
      rewrite (run_bind_ret _ _ _ _ _
                 (run_range_bound _ _ _ _ _ _ eq_refl Hrow Hlo)), Hle1.
      rewrite run_bind, (run_bind_ret _ _ _ _ _
                           (run_range_bound _ _ _ _ _ _ eq_refl Hrow Hhi)).
      cbn [mret M_ret]. by rewrite Hle2.
    + by exists pos.
    + congruence.
  - exists (inl (-1)%Z), (with_log LogError msg s). split; [|split].
    + unfold set_axis.
      by rewrite (run_bind_ret _ _ _ _ _
                    (run_range_bound _ _ _ _ _ _ eq_refl Hrow Hlo)), Hle1.
    + by exists pos.
    + congruence.
Qed.

(** *** The whole call *)

Definition passes (ranges : list (list float)) (i : nat) (v : option float)
    : Prop :=
  match v with
  | Some v => in_range ranges i v
  | None => True
  end.

Definition put_axis (i : nat) (v : option float) (pos : list float) :=
  match v with
  | Some v => <[i:=v]> pos
  | None => pos
  end.

Definition put_key (key : string) (v : option float)
    (move_dict : gmap string number) :=
  match v with
  | Some v => <[key:=PyFloat v]> move_dict
  | None => move_dict
  end.

(** The move command and the position array that a call with the
    coordinates [x], [y], [z], [a] builds on a [float64] position array
    when every block accepts. *)
Definition command (x y z a : option float) : gmap string number :=
  put_key "a" a (put_key "z" z (put_key "y" y (put_key "x" x ∅))).

Definition target (x y z a : option float) (pos : list float) : list float :=
  put_axis 3 a (put_axis 2 z (put_axis 1 y (put_axis 0 x pos))).

(** The same for a position array of either element type: the command
    holds the coordinates as the array holds them. *)
Definition put_held (p : option position_store) (key : string)
    (v : option float) (move_dict : gmap string number) :=
  match v with
  | Some v => <[key:=held p v]> move_dict
  | None => move_dict
  end.

(** The move command that a call with the coordinates [x], [y], [z], [a]
    builds on the position [p] when every block accepts. *)
Definition command_held (p : option position_store) (x y z a : option float)
    : gmap string number :=
  put_held p "a" a (put_held p "z" z (put_held p "y" y (put_held p "x" x ∅))).



Definition put_array (i : nat) (v : option float) (p : position_store) :=
  match v with
  | Some v => write_array i v p
  | None => p
  end.

Definition target_array (x y z a : option float) (p : position_store)
    : position_store :=
  put_array 3 a (put_array 2 z (put_array 1 y (put_array 0 x p))).

Lemma array_length_put_array i v p :
  array_length (put_array i v p) = array_length p.
Proof. destruct v; [apply array_length_write_array|done]. Qed.

Lemma int_array_put_array i v p :
  int_array (Some (put_array i v p)) = int_array (Some p).
Proof. destruct v; [apply int_array_write_array|done]. Qed.

Lemma put_held_kind p q key v move_dict :
  int_array p = int_array q →
  put_held p key v move_dict = put_held q key v move_dict.
Proof. intros H. destruct v; [|done]. unfold put_held, held. by rewrite H. Qed.

Definition is_ret {A} (r : outcome A) : bool :=
  match r with Ret _ => true | Raise _ => false end.

Lemma length_put_axis i v pos : length (put_axis i v pos) = length pos.
Proof. destruct v; simpl; [apply length_insert|reflexivity]. Qed.

Lemma set_axis_passes i key msg v move_dict pos s :
  _current_position (self s) = Some (PosNdarray pos) → i < length pos →
  passes (_scanner_position_ranges (self s)) i v →
  set_axis env i key msg v move_dict s =
  (Ret (inr (put_key key v move_dict)), with_position (put_axis i v pos) s).
Proof.
  intros Hpos Hi Hv. destruct v as [v|]; simpl.
  - by apply set_axis_accept.
  - by rewrite with_position_id.
Qed.

Lemma set_axis_passes_array i key msg v move_dict p n s :
  _current_position (self s) = Some p → array_length p = Some n → i < n →
  (∀ j w, in_range (_scanner_position_ranges (self s)) j w →
          storable (int_array (Some p)) w) →
  passes (_scanner_position_ranges (self s)) i v →
  set_axis env i key msg v move_dict s =
  (Ret (inr (put_held (Some p) key v move_dict)),
   with_store (put_array i v p) s).
Proof.
  intros Hpos Hlen Hi Hfit Hv. destruct v as [v|]; simpl.
  - eapply set_axis_accept_array; eauto.
  - by rewrite with_store_id.
Qed.

(** The last statement of [scanner_set_position]: the command is sent;
    0 when the stage accepts it, the logged error code when it raises. *)
Definition send (move_dict : gmap string number) : M env Z :=
  try_except env
    (device_call env (EvMoveAbs move_dict) (stage_move_abs env move_dict);;
     mret 0%Z)
    (λ _, true)
    (λ _, log_msg env LogError "Logic interfuse can't set stage position.";;
          mret (-1)%Z).

Definition sent (move_dict : gmap string number) s : machine env :=
  let r := stage_move_abs env move_dict (world s) in
  Build_machine env (self s) r.2 (trace s ++ [EvMoveAbs move_dict])
    (if is_ret r.1 then logged s
     else logged s ++ [(LogError, "Logic interfuse can't set stage position.")]).

Lemma run_send move_dict s :
  send move_dict s =
  (Ret (if is_ret (stage_move_abs env move_dict (world s)).1
        then 0%Z else (-1)%Z),
   sent move_dict s).
Proof.
  unfold send, sent, try_except. rewrite run_bind. unfold device_call.
  by destruct (stage_move_abs env move_dict (world s)) as [[[]|e] w].
Qed.

(** [scanner_set_position] block by block. *)
Lemma scanner_set_position_blocks x y z a s :
  scanner_set_position env x y z a s =
  (r ← set_axis env 0 "x" "You want to set x-axis out of scan-config range."
         x ∅;
   match r with
   | inl c => mret c
   | inr move_dict =>
   r ← set_axis env 1 "y" "You want to set y-axis out of scan-config range."
         y move_dict;
   match r with
   | inl c => mret c
   | inr move_dict =>
   r ← set_axis env 2 "z" "You want to set z-axis out of scan-config range."
         z move_dict;
   match r with
   | inl c => mret c
   | inr move_dict =>
   r ← set_axis env 3 "a" "You want to set a-axis out of scan-config range."
         a move_dict;
   match r with
   | inl c => mret c
   | inr move_dict => send move_dict
   end end end end) s.
Proof. reflexivity. Qed.

Lemma lookup_target_provided x y z a pos i v :
  length pos = 4 →
  [x; y; z; a] !! i = Some (Some v) → target x y z a pos !! i = Some v.
Proof.
  intros Hlen Hi. unfold target.
  destruct pos as [|p0 [|p1 [|p2 [|p3 [|]]]]]; try discriminate.
  destruct x as [x|], y as [y|], z as [z|], a as [a|], i as [|[|[|[|]]]];
    simpl in *; by simplify_eq.
Qed.

Lemma lookup_put_axis_ne i j v (pos : list float) :
  i ≠ j → put_axis i v pos !! j = pos !! j.
Proof. intros Hne. destruct v; simpl; [by apply list_lookup_insert_ne|done]. Qed.

Lemma lookup_target_omitted x y z a pos i :
  [x; y; z; a] !! i = Some None → target x y z a pos !! i = pos !! i.
Proof.
  intros Hi. unfold target.
  destruct i as [|[|[|[|]]]]; simpl in Hi; simplify_eq;
    cbn [put_axis]; by rewrite !lookup_put_axis_ne by lia.
Qed.

(** The accepting run on a [float64] position array of four entries.
    When every provided coordinate passes its range check, one move command
    holding exactly the provided axes is sent; the call returns 0 when the
    stage accepts it and the error code when the stage raises; whatever the
    stage answers, the position array has by then been written at exactly
    the provided axes (the omitted axes keep their values). *)
Lemma scanner_set_position_in_range x y z a pos s :
  _current_position (self s) = Some (PosNdarray pos) → length pos = 4 →
  passes (_scanner_position_ranges (self s)) 0 x →
  passes (_scanner_position_ranges (self s)) 1 y →
  passes (_scanner_position_ranges (self s)) 2 z →
  passes (_scanner_position_ranges (self s)) 3 a →
  let answer := stage_move_abs env (command x y z a) (world s) in
  ∃ s',
    scanner_set_position env x y z a s =
      (Ret (if is_ret answer.1 then 0%Z else (-1)%Z), s') ∧
    trace s' = trace s ++ [EvMoveAbs (command x y z a)] ∧
    world s' = answer.2 ∧
    get_scanner_position env s' =
      (Ret (Some (PyFloat <$> target x y z a pos)), s') ∧
    (∀ i v, [x; y; z; a] !! i = Some (Some v) →
            target x y z a pos !! i = Some v) ∧
    (∀ i, [x; y; z; a] !! i = Some None →
          target x y z a pos !! i = pos !! i).
Proof.
  intros Hpos Hlen Hx Hy Hz Ha answer.
  exists (sent (command x y z a) (with_position (target x y z a pos) s)).
  split; [|split; [reflexivity|split; [reflexivity|split; [reflexivity|]]]].
  - rewrite scanner_set_position_blocks.
    rewrite (run_bind_ret _ _ _ _ _
               (set_axis_passes 0 _ _ x ∅ pos s Hpos ltac:(lia) Hx)).
    set (p1 := put_axis 0 x pos).
    rewrite (run_bind_ret _ _ _ _ _
               (set_axis_passes 1 _ _ y _ p1 (with_position p1 s) eq_refl
                  ltac:(subst p1; rewrite length_put_axis; lia) Hy)).
    set (p2 := put_axis 1 y p1).
    rewrite (run_bind_ret _ _ _ _ _
               (set_axis_passes 2 _ _ z _ p2
                  (with_position p2 (with_position p1 s)) eq_refl
                  ltac:(subst p1 p2; rewrite !length_put_axis; lia) Hz)).
    set (p3 := put_axis 2 z p2).
    rewrite (run_bind_ret _ _ _ _ _
               (set_axis_passes 3 _ _ a _ p3
                  (with_position p3 (with_position p2 (with_position p1 s)))
                  eq_refl
                  ltac:(subst p1 p2 p3; rewrite !length_put_axis; lia) Ha)).
    apply run_send.
  - split; [intros i v; by apply lookup_target_provided|].
    apply lookup_target_omitted.
Qed.

(** *** Calls that may be rejected *)

Lemma ranges_ok_quiet s s' : quiet s s' → ranges_ok s → ranges_ok s'.
Proof. intros Hq H i Hi. rewrite (quiet_ranges _ _ Hq). by apply H. Qed.

(** A block of an adapter that holds a position array and a full range
    table. *)
Lemma set_axis_ready i key msg v move_dict s :
  position_ok s → ranges_ok s → i < 4 →
  ∃ r s', set_axis env i key msg v move_dict s = (Ret r, s') ∧
          position_ok s' ∧ ranges_ok s' ∧ quiet s s' ∧
          (∀ c, r = inl c → c = (-1)%Z) ∧
          (∀ w, v = Some w →
                outside (_scanner_position_ranges (self s)) i w →
                r = inl (-1)%Z).
Proof.
  intros Hpos Hranges Hi.
  destruct (set_axis_total i key msg v move_dict s Hpos Hranges Hi)
    as (r & s' & E & Hpos' & Hc).
  exists r, s'. pose proof (set_axis_quiet _ _ _ _ _ _ _ _ E) as Hq.
  repeat split; try done.
  - by eapply ranges_ok_quiet.
  - apply Hq.
  - apply Hq.
  - apply Hq.
  - apply Hq.
  - apply Hq.
  - intros w -> Hout.
    rewrite (set_axis_reject i key msg w move_dict s Hout) in E. congruence.
Qed.

(** What a call to [scanner_set_position] can have done to the stage:
    nothing, or one [move_abs]. *)
Definition at_most_one_move s s' : Prop :=
  (trace s' = trace s ∧ world s' = world s) ∨
  ∃ move_dict,
    trace s' = trace s ++ [EvMoveAbs move_dict] ∧
    world s' = (stage_move_abs env move_dict (world s)).2.

Record settings_kept s s' : Prop := {
  kept_ranges :
    _scanner_position_ranges (self s') = _scanner_position_ranges (self s);
  kept_bins : _dwell_cnt_bins (self s') = _dwell_cnt_bins (self s);
  kept_delay : _dwell_delay (self s') = _dwell_delay (self s);
}.

Lemma quiet_settings_kept s s' : quiet s s' → settings_kept s s'.
Proof. intros []. by split. Qed.

Lemma quiet_sent move_dict s s1 :
  quiet s s1 →
  at_most_one_move s (sent move_dict s1) ∧ settings_kept s (sent move_dict s1).
Proof.
  intros []. split.
  - right. exists move_dict. simpl. split; congruence.
  - by split.
Qed.

Ltac first_block H E :=
  rewrite run_bind in H;
  lazymatch type of H with
  | context [set_axis ?e ?i ?k ?m ?v ?md ?s] =>
      destruct (set_axis e i k m v md s) as [[[?|?]|?] ?] eqn:E;
      apply set_axis_quiet in E
  end.

(** Whatever the state and the coordinates, a call makes at most one move
    and changes no setting, also when it raises. *)
Lemma scanner_set_position_effect x y z a s r s' :
  scanner_set_position env x y z a s = (r, s') →
  at_most_one_move s s' ∧ settings_kept s s'.
Proof.
  rewrite scanner_set_position_blocks. intros H.
  assert (∀ s1, quiet s s1 → at_most_one_move s s1 ∧ settings_kept s s1)
    as Hquiet.
  { intros s1 Hq. split; [left; split; apply Hq|by apply quiet_settings_kept]. }
  first_block H E0; [inversion H; subst; by apply Hquiet| |
                     inversion H; subst; by apply Hquiet].
  first_block H E1; [inversion H; subst; apply Hquiet; by eapply quiet_trans| |
                     inversion H; subst; apply Hquiet; by eapply quiet_trans].
  pose proof (quiet_trans _ _ _ E0 E1) as Q1.
  first_block H E2; [inversion H; subst; apply Hquiet; by eapply quiet_trans| |
                     inversion H; subst; apply Hquiet; by eapply quiet_trans].
  pose proof (quiet_trans _ _ _ Q1 E2) as Q2.
  first_block H E3; [inversion H; subst; apply Hquiet; by eapply quiet_trans| |
                     inversion H; subst; apply Hquiet; by eapply quiet_trans].
  pose proof (quiet_trans _ _ _ Q2 E3) as Q3.
  rewrite run_send in H. inversion H; subst. by apply quiet_sent.
Qed.

Lemma position_ok_sent move_dict s : position_ok s → position_ok (sent move_dict s).
Proof. intros (pos & ? & ?). by exists pos. Qed.

(** With a position array and a full range table the call returns a
    code: it never raises. *)
Lemma scanner_set_position_total x y z a s :
  position_ok s → ranges_ok s →
  ∃ c s', scanner_set_position env x y z a s = (Ret c, s') ∧ position_ok s'.
Proof.
  intros Hp Hr. rewrite scanner_set_position_blocks.
  destruct (set_axis_ready 0 "x" "You want to set x-axis out of scan-config range."
              x ∅ s Hp Hr ltac:(lia))
    as ([c|d0] & s0 & E0 & Hp0 & Hr0 & _);
    rewrite (run_bind_ret _ _ _ _ _ E0); [by eexists _, _|].
  destruct (set_axis_ready 1 "y" "You want to set y-axis out of scan-config range."
              y d0 s0 Hp0 Hr0 ltac:(lia))
    as ([c|d1] & s1 & E1 & Hp1 & Hr1 & _);
    rewrite (run_bind_ret _ _ _ _ _ E1); [by eexists _, _|].
  destruct (set_axis_ready 2 "z" "You want to set z-axis out of scan-config range."
              z d1 s1 Hp1 Hr1 ltac:(lia))
    as ([c|d2] & s2 & E2 & Hp2 & Hr2 & _);
    rewrite (run_bind_ret _ _ _ _ _ E2); [by eexists _, _|].
  destruct (set_axis_ready 3 "a" "You want to set a-axis out of scan-config range."
              a d2 s2 Hp2 Hr2 ltac:(lia))
    as ([c|d3] & s3 & E3 & Hp3 & Hr3 & _);
    rewrite (run_bind_ret _ _ _ _ _ E3); [by eexists _, _|].
  rewrite run_send. eexists _, _. split; [reflexivity|].
  by apply position_ok_sent.
Qed.

(** X2. On an adapter that holds a position array of four entries (a
    [float64] array, or an [int64] array to which every coordinate within
    the ranges can be written) and a full range table, when some provided
    coordinate is strictly outside its bounds the call returns the error
    code and no device is called. *)
Lemma scanner_set_position_out_of_range x y z a s :
  position_ok s → ranges_ok s →
  (∃ i v, [x; y; z; a] !! i = Some (Some v) ∧
          outside (_scanner_position_ranges (self s)) i v) →
  ∃ s', scanner_set_position env x y z a s = (Ret (-1)%Z, s') ∧
        trace s' = trace s ∧ world s' = world s.
Proof.
  intros Hp Hr (i & v & Hi & Hout). rewrite scanner_set_position_blocks.
  destruct (set_axis_ready 0 "x" "You want to set x-axis out of scan-config range."
              x ∅ s Hp Hr ltac:(lia))
    as ([c|d0] & s0 & E0 & Hp0 & Hr0 & Q0 & Hc0 & Ho0);
    rewrite (run_bind_ret _ _ _ _ _ E0);
    [rewrite (Hc0 c eq_refl); exists s0; repeat split; apply Q0|].
  destruct (set_axis_ready 1 "y" "You want to set y-axis out of scan-config range."
              y d0 s0 Hp0 Hr0 ltac:(lia))
    as ([c|d1] & s1 & E1 & Hp1 & Hr1 & Q1 & Hc1 & Ho1);
    rewrite (run_bind_ret _ _ _ _ _ E1);
    pose proof (quiet_trans _ _ _ Q0 Q1) as Q01;
    [rewrite (Hc1 c eq_refl); exists s1; repeat split; apply Q01|].
  destruct (set_axis_ready 2 "z" "You want to set z-axis out of scan-config range."
              z d1 s1 Hp1 Hr1 ltac:(lia))
    as ([c|d2] & s2 & E2 & Hp2 & Hr2 & Q2 & Hc2 & Ho2);
    rewrite (run_bind_ret _ _ _ _ _ E2);
    pose proof (quiet_trans _ _ _ Q01 Q2) as Q02;
    [rewrite (Hc2 c eq_refl); exists s2; repeat split; apply Q02|].
  destruct (set_axis_ready 3 "a" "You want to set a-axis out of scan-config range."
              a d2 s2 Hp2 Hr2 ltac:(lia))
    as ([c|d3] & s3 & E3 & Hp3 & Hr3 & Q3 & Hc3 & Ho3);
    rewrite (run_bind_ret _ _ _ _ _ E3);
    pose proof (quiet_trans _ _ _ Q02 Q3) as Q03;
    [rewrite (Hc3 c eq_refl); exists s3; repeat split; apply Q03|].
  exfalso.
  rewrite (quiet_ranges _ _ Q0) in Ho1.
  rewrite (quiet_ranges _ _ Q01) in Ho2.
  rewrite (quiet_ranges _ _ Q02) in Ho3.
  destruct i as [|[|[|[|]]]]; simpl in Hi; simplify_eq.
  - by specialize (Ho0 v eq_refl Hout).
  - by specialize (Ho1 v eq_refl Hout).
  - by specialize (Ho2 v eq_refl Hout).
  - by specialize (Ho3 v eq_refl Hout).
Qed.

End Position.

(** ** Line scan: [scan_line] *)

Section LineScan.

Context {env : environment}.
Implicit Types s : machine env.

Lemma bind_ret_inv {A B} (m : M env A) (f : A → M env B) s b s' :
  (m ≫= f) s = (Ret b, s') →
  ∃ a s1, m s = (Ret a, s1) ∧ f a s1 = (Ret b, s').
Proof.
  rewrite run_bind. destruct (m s) as [[a|e] s1]; [|discriminate].
  intros H. by exists a, s1.
Qed.

Lemma scan_pixels_app line_path l1 l2 count_data s :
  scan_pixels env line_path (l1 ++ l2) count_data s =
  (cd ← scan_pixels env line_path l1 count_data;
   scan_pixels env line_path l2 cd) s.
Proof.
  revert count_data s. induction l1 as [|i l1 IH]; intros count_data s.
  - reflexivity.
  - cbn [app scan_pixels]. rewrite !run_bind.
    destruct (scan_pixel env line_path i count_data s) as [[cd|e] s1];
      [|reflexivity].
    rewrite IH. by rewrite run_bind.
Qed.

(** The state in which the loop of [scan_line] starts: [set_up_line] has
    recorded the number of pixels. *)
Definition lined_up (n : nat) s : machine env :=
  Build_machine env (set_line_length n (self s)) (world s) (trace s) (logged s).

Lemma scan_line_ndarray2 nrows ncols cell s :
  scan_line env (LineNdarray2 nrows ncols cell) s =
  (count_data ← scan_pixels env (LineNdarray2 nrows ncols cell) (seq 0 ncols)
                   (replicate ncols 0%float);
   mret (Array2 ((λ c, [c]) <$> count_data))) (lined_up ncols s).
Proof. reflexivity. Qed.

Lemma scan_pixel_length line_path i count_data s cd' s' :
  scan_pixel env line_path i count_data s = (Ret cd', s') →
  length cd' = length count_data.
Proof.
  unfold scan_pixel. intros H.
  repeat (apply bind_ret_inv in H as (? & ? & _ & H)).
  inversion H. apply length_insert.
Qed.

(** The loop over a list of pixels either returns after the body has
    returned for every pixel, or raises where the body first raises: the
    pixels before it have returned, and nothing runs after it. *)
Lemma scan_pixels_outcome line_path indices count_data s :
  match scan_pixels env line_path indices count_data s with
  | (Ret cd', s') => length cd' = length count_data
  | (Raise e, s') =>
      ∃ before i after cd_i s_i,
        indices = before ++ i :: after ∧
        scan_pixels env line_path before count_data s = (Ret cd_i, s_i) ∧
        scan_pixel env line_path i cd_i s_i = (Raise e, s')
  end.
Proof.
  revert count_data s. induction indices as [|i rest IH]; intros count_data s.
  - reflexivity.
  - cbn [scan_pixels]. rewrite run_bind.
    destruct (scan_pixel env line_path i count_data s) as [[cd1|e] s1] eqn:E.
    + specialize (IH cd1 s1).
      destruct (scan_pixels env line_path rest cd1 s1) as [[cd'|e] s'].
      * rewrite IH. by eapply scan_pixel_length.
      * destruct IH as (before & j & after & cd_j & s_j & -> & Hrun & Hj).
        exists (i :: before), j, after, cd_j, s_j. split; [done|]. split; [|done].
        cbn [scan_pixels]. by rewrite (run_bind_ret _ _ _ _ _ E).
    + by exists [], i, rest, count_data, s.
Qed.

Lemma scan_pixels_prefix_returns line_path l1 l2 count_data s cd' s' :
  scan_pixels env line_path (l1 ++ l2) count_data s = (Ret cd', s') →
  ∃ cd1 s1, scan_pixels env line_path l1 count_data s = (Ret cd1, s1) ∧
            scan_pixels env line_path l2 cd1 s1 = (Ret cd', s').
Proof. rewrite scan_pixels_app. apply bind_ret_inv. Qed.

Lemma seq_split_at (n i : nat) :
  i < n → seq 0 n = seq 0 i ++ i :: seq (S i) (n - S i).
Proof.
  intros Hi. replace n with (i + S (n - S i)) at 1 by lia.
  by rewrite seq_app.
Qed.

Lemma seq_app_cons_inv (n : nat) before i after :
  seq 0 n = before ++ i :: after → before = seq 0 i ∧ i < n.
Proof.
  intros H.
  assert (length before = i) as Hlen.
  { assert (seq 0 n !! length before = Some i) as Hl.
    { rewrite H. by rewrite list_lookup_middle. }
    apply lookup_seq in Hl. lia. }
  assert (i < n) as Hi.
  { apply (f_equal length) in H.
    rewrite length_seq, length_app in H. simpl in H. lia. }
  split; [|done].
  rewrite (seq_split_at n i Hi) in H.
  apply app_inj_1 in H; [by destruct H|]. by rewrite length_seq.
Qed.

(** *** The order of the device calls in a scan *)

Lemma mret_inv {A} (a b : A) s s' :
  (mret a : M env A) s = (Ret b, s') → b = a ∧ s' = s.
Proof. by intros [= <- <-]. Qed.

Lemma py_index_inv {A} (l : list A) i v s s' :
  py_index env l i s = (Ret v, s') → l !! i = Some v ∧ s' = s.
Proof. unfold py_index. destruct (l !! i); by intros [= <- <-]. Qed.

Lemma read_attr_inv {A} (f : adapter → option A) v s s' :
  read_attr env f s = (Ret v, s') → f (self s) = Some v ∧ s' = s.
Proof.
  unfold read_attr. rewrite run_bind. unfold read_self.
  destruct (f (self s)); by intros [= <- <-].
Qed.

Lemma device_call_inv {A} ev (f : World env → outcome A * World env) s r s' :
  device_call env ev f s = (r, s') →
  ∃ w, f (world s) = (r, w) ∧
       s' = Build_machine env (self s) w (trace s ++ [ev]) (logged s).
Proof.
  unfold device_call. destruct (f (world s)) as [r0 w]. intros [= <- <-].
  by exists w.
Qed.

Lemma column_inv line_path i coords s s' :
  column env line_path i s = (Ret coords, s') →
  s' = s ∧
  ∃ nrows ncols cell, line_path = LineNdarray2 nrows ncols cell ∧ i < ncols ∧
                      coords = (λ j, cell j i) <$> seq 0 nrows.
Proof.
  destruct line_path as [|rows|v|nrows ncols cell]; try discriminate.
  unfold column. destruct (Nat.ltb_spec i ncols); [|discriminate].
  intros [= <- <-]. split; [done|]. by exists nrows, ncols, cell.
Qed.

(** The state [s'] is reached from [s] by the device calls [evs], with the
    settings unchanged. *)
Definition emits s s' (evs : list event) : Prop :=
  trace s' = trace s ++ evs ∧ settings_kept s s'.

Lemma emits_refl s : emits s s [].
Proof. split; [by rewrite app_nil_r|by split]. Qed.

Lemma emits_trans s1 s2 s3 evs1 evs2 :
  emits s1 s2 evs1 → emits s2 s3 evs2 → emits s1 s3 (evs1 ++ evs2).
Proof.
  intros [H1 []] [H2 []]. split.
  - by rewrite H2, H1, app_assoc.
  - split; congruence.
Qed.

Lemma emits_device_call {A} ev (f : World env → outcome A * World env) s r s' :
  device_call env ev f s = (r, s') → emits s s' [ev].
Proof. intros (w & _ & ->)%device_call_inv. by repeat split. Qed.

(** The device calls of one [scanner_set_position]: none, or one move. *)
Definition move_attempt (evs : list event) : Prop :=
  evs = [] ∨ ∃ move_dict, evs = [EvMoveAbs move_dict].

Lemma emits_scanner_set_position x y z a s r s' :
  scanner_set_position env x y z a s = (r, s') →
  ∃ moves, move_attempt moves ∧ emits s s' moves.
Proof.
  intros [[[Ht _]|(move_dict & Ht & _)] Hk]%scanner_set_position_effect.
  - exists []. split; [by left|]. split; [by rewrite app_nil_r|done].
  - exists [EvMoveAbs move_dict]. split; [right; by eexists|]. by split.
Qed.

(** What the loop body does before it samples pixel [i]: the barrier for
    pixel 0, the settle delay for the others. *)
Definition wait (i : nat) (delay : float) : event :=
  if (i =? 0)%nat then EvOnTarget else EvSleep delay.

Lemma read_counts_inv counts s s' :
  read_counts env s = (Ret counts, s') →
  emits s s' [EvCountdata] ∧ world s' = world s ∧
  ∃ bins channel,
    _dwell_cnt_bins (self s) = Some bins ∧
    counter_countdata env (world s) !! 0 = Some channel ∧
    counts = py_slice_from (- bins) channel.
Proof.
  unfold read_counts. intros H.
  apply bind_ret_inv in H as (countdata & s1 & Hcall & H).
  apply bind_ret_inv in H as (bins & s2 & Hbins & H).
  apply bind_ret_inv in H as (channel & s3 & Hch & H).
  pose proof (emits_device_call _ _ _ _ _ Hcall) as Hem.
  apply device_call_inv in Hcall as (w & [= <- <-] & ->).
  apply read_attr_inv in Hbins as [Hbins ->].
  apply py_index_inv in Hch as [Hch ->].
  apply mret_inv in H as [-> ->].
  split; [done|]. split; [done|]. by exists bins, channel.
Qed.

Lemma scan_pixel_trace line_path i count_data delay s cd' s' :
  _dwell_delay (self s) = Some delay →
  scan_pixel env line_path i count_data s = (Ret cd', s') →
  ∃ moves, move_attempt moves ∧
           emits s s' (moves ++ [wait i delay; EvCountdata]).
Proof.
  intros Hdelay H. unfold scan_pixel in H.
  apply bind_ret_inv in H as (coords & s1 & [-> _]%column_inv & H).
  apply bind_ret_inv in H as (x & s1 & [_ ->]%py_index_inv & H).
  apply bind_ret_inv in H as (y & s1 & [_ ->]%py_index_inv & H).
  apply bind_ret_inv in H as (z & s1 & [_ ->]%py_index_inv & H).
  apply bind_ret_inv in H as (a & s1 & [_ ->]%py_index_inv & H).
  apply bind_ret_inv in H as (c & s1 & Hset & H).
  apply emits_scanner_set_position in Hset as (moves & Hmoves & Hem1).
  apply bind_ret_inv in H as (u & s2 & Hwait & H).
  apply bind_ret_inv in H as (counts & s3 & [Hem3 _]%read_counts_inv & H).
  apply mret_inv in H as [_ ->].
  exists moves. split; [done|].
  assert (emits s1 s2 [wait i delay]) as Hem2.
  { unfold wait. destruct (i =? 0)%nat.
    - apply bind_ret_inv in Hwait as (code & s2' & Hcall & [_ ->]%mret_inv).
      by eapply emits_device_call.
    - apply bind_ret_inv in Hwait as (d & s2' & [Hd ->]%read_attr_inv & Hcall).
      destruct Hem1 as [_ [_ _ Hkept]]. rewrite Hkept, Hdelay in Hd.
      inversion Hd; subst d. by eapply emits_device_call. }
  change (moves ++ [wait i delay; EvCountdata])
    with (moves ++ [wait i delay] ++ [EvCountdata]).
  eapply emits_trans; [done|]. by eapply emits_trans.
Qed.

Lemma later_pixels_trace line_path indices count_data delay s cd' s' :
  Forall (λ i, i ≠ 0) indices →
  _dwell_delay (self s) = Some delay →
  scan_pixels env line_path indices count_data s = (Ret cd', s') →
  ∃ rest, length rest = length indices ∧ Forall move_attempt rest ∧
          emits s s'
            (concat ((λ m, m ++ [EvSleep delay; EvCountdata]) <$> rest)).
Proof.
  revert count_data s.
  induction indices as [|i indices IH]; intros count_data s Hpos Hdelay H.
  - apply mret_inv in H as [_ ->]. exists []. repeat split; try done.
    by rewrite app_nil_r.
  - cbn [scan_pixels] in H.
    apply bind_ret_inv in H as (cd1 & s1 & Hpixel & H).
    inversion Hpos as [|? ? Hi Hrest]; subst.
    apply (scan_pixel_trace _ _ _ delay) in Hpixel as (m & Hm & Hem);
      [|done].
    unfold wait in Hem. destruct (Nat.eqb_spec i 0) as [|_]; [done|].
    apply IH in H as (rest & Hlen & Hall & Hem'); [|done|].
    + exists (m :: rest). split; [simpl; by rewrite Hlen|].
      split; [by constructor|].
      cbn [fmap list_fmap concat]. by eapply emits_trans.
    + destruct Hem as [_ [_ _ ->]]. done.
Qed.

(** The number of calls to the motion-completion barrier in a list of
    device calls. *)
Definition is_barrier (ev : event) : bool :=
  match ev with EvOnTarget => true | _ => false end.

Definition barrier_calls (evs : list event) : nat :=
  length (List.filter is_barrier evs).

Lemma barrier_calls_app evs1 evs2 :
  barrier_calls (evs1 ++ evs2) = barrier_calls evs1 + barrier_calls evs2.
Proof. unfold barrier_calls. by rewrite List.filter_app, length_app. Qed.

Lemma barrier_calls_move_attempt evs : move_attempt evs → barrier_calls evs = 0.
Proof. by intros [->|(move_dict & ->)]. Qed.

Lemma barrier_calls_later delay rest :
  Forall move_attempt rest →
  barrier_calls (concat ((λ m, m ++ [EvSleep delay; EvCountdata]) <$> rest)) = 0.
Proof.
  induction 1 as [|m rest Hm _ IH]; [done|].
  cbn [fmap list_fmap concat].
  rewrite !barrier_calls_app, IH, (barrier_calls_move_attempt _ Hm). done.
Qed.

(** C7. In a line scan over N >= 1 pixels of a 4 x N array that returns,
    the device calls are, in order: for pixel 0 the move (when the pixel
    passes the range check), then the barrier [on_target], then the sample,
    with no sleep; for each of the N-1 later pixels the move (when it
    passes), then a sleep of the configured settle delay, then the sample,
    with no barrier.  The barrier is called exactly once. *)
Theorem scan_line_barrier_then_delay N cell delay s result s' :
  1 ≤ N →
  _dwell_delay (self s) = Some delay →
  scan_line env (LineNdarray2 4 N cell) s = (Ret result, s') →
  ∃ first rest,
    move_attempt first ∧ Forall move_attempt rest ∧ length rest = N - 1 ∧
    let calls :=
      (first ++ [EvOnTarget; EvCountdata]) ++
      concat ((λ m, m ++ [EvSleep delay; EvCountdata]) <$> rest) in
    trace s' = trace s ++ calls ∧ barrier_calls calls = 1.
Proof.
  intros HN Hdelay H. rewrite scan_line_ndarray2 in H.
  apply bind_ret_inv in H as (cd & s1 & Hloop & [_ ->]%mret_inv).
  destruct N as [|n]; [lia|]. cbn [seq scan_pixels] in Hloop.
  apply bind_ret_inv in Hloop as (cd0 & s0 & Hfirst & Hrest).
  apply (scan_pixel_trace _ _ _ delay) in Hfirst as (first & Hm & Hem0);
    [|done].
  apply (later_pixels_trace _ _ _ delay) in Hrest
    as (rest & Hlen & Hall & Hem1).
  - exists first, rest. split; [done|]. split; [done|].
    split; [rewrite Hlen, length_seq; lia|].
    split.
    + destruct (emits_trans _ _ _ _ _ Hem0 Hem1) as [Ht _]. exact Ht.
    + rewrite !barrier_calls_app, (barrier_calls_later _ _ Hall),
        (barrier_calls_move_attempt _ Hm). done.
  - apply Forall_forall. intros i Hi%elem_of_seq. lia.
  - destruct Hem0 as [_ [_ _ ->]]. done.
Qed.

(** *** Every pixel of a scan that returns has been sampled *)

(** The number of reads of the count buffer in a list of device calls. *)
Definition is_sample (ev : event) : bool :=
  match ev with EvCountdata => true | _ => false end.

Definition sample_calls (evs : list event) : nat :=
  length (List.filter is_sample evs).

Lemma sample_calls_app evs1 evs2 :
  sample_calls (evs1 ++ evs2) = sample_calls evs1 + sample_calls evs2.
Proof. unfold sample_calls. by rewrite List.filter_app, length_app. Qed.

Lemma sample_calls_move_attempt evs : move_attempt evs → sample_calls evs = 0.
Proof. by intros [->|(move_dict & ->)]. Qed.

(** The loop body has run for the pixels [first], [first + 1], ... one
    after the other, each on the count array and in the state that the
    pixel before it left, and each has returned: it has read the count
    buffer once and has written, at its own entry of the count array, the
    mean of the window of that buffer.  [samples] lists the means written,
    in the order of the pixels. *)
Inductive pixels_sampled (line_path : line_arg)
    : nat → list float → machine env →
      list float → list float → machine env → Prop :=
  | sampled_none first count_data s :
      pixels_sampled line_path first count_data s [] count_data s
  | sampled_next first count_data s sample bins channel calls s1
        samples count_data' s' :
      scan_pixel env line_path first count_data s =
        (Ret (<[first:=sample]> count_data), s1) →
      _dwell_cnt_bins (self s1) = Some bins →
      counter_countdata env (world s1) !! 0 = Some channel →
      sample = np_mean env (py_slice_from (- bins) channel) →
      trace s1 = trace s ++ calls → sample_calls calls = 1 →
      pixels_sampled line_path (S first) (<[first:=sample]> count_data) s1
        samples count_data' s' →
      pixels_sampled line_path first count_data s (sample :: samples)
        count_data' s'.

(** A body that returns has read the count buffer once and has written the
    mean of its window at the entry of its pixel. *)
Lemma scan_pixel_sampled line_path i count_data s cd' s' :
  scan_pixel env line_path i count_data s = (Ret cd', s') →
  ∃ sample bins channel calls,
    cd' = <[i:=sample]> count_data ∧
    _dwell_cnt_bins (self s') = Some bins ∧
    counter_countdata env (world s') !! 0 = Some channel ∧
    sample = np_mean env (py_slice_from (- bins) channel) ∧
    trace s' = trace s ++ calls ∧ sample_calls calls = 1.
Proof.
  intros H. unfold scan_pixel in H.
  apply bind_ret_inv in H as (coords & s1 & [-> _]%column_inv & H).
  apply bind_ret_inv in H as (x & s1 & [_ ->]%py_index_inv & H).
  apply bind_ret_inv in H as (y & s1 & [_ ->]%py_index_inv & H).
  apply bind_ret_inv in H as (z & s1 & [_ ->]%py_index_inv & H).
  apply bind_ret_inv in H as (a & s1 & [_ ->]%py_index_inv & H).
  apply bind_ret_inv in H as (c & s1 & Hset & H).
  apply emits_scanner_set_position in Hset as (moves & Hmoves & [Ht1 _]).
  apply bind_ret_inv in H as (u & s2 & Hwait & H).
  apply bind_ret_inv in H as (counts & s3 & Hread & H).
  apply mret_inv in H as [-> ->].
  apply read_counts_inv in Hread
    as ([Ht3 [_ Kbins _]] & Hw3 & bins & channel & Hbins & Hch & ->).
  assert (∃ w, is_sample w = false ∧ trace s2 = trace s1 ++ [w]) as (w & Hw & Ht2).
  { destruct (i =? 0)%nat.
    - apply bind_ret_inv in Hwait as (code & s2' & Hcall & [_ ->]%mret_inv).
      apply device_call_inv in Hcall as (w' & _ & ->). by exists EvOnTarget.
    - apply bind_ret_inv in Hwait as (d & s2' & [Hd ->]%read_attr_inv & Hcall).
      apply device_call_inv in Hcall as (w' & _ & ->). by exists (EvSleep d). }
  exists (np_mean env (py_slice_from (- bins) channel)), bins, channel,
    (moves ++ [w] ++ [EvCountdata]).
  split; [done|]. split; [by rewrite Kbins|]. split; [by rewrite Hw3|].
  split; [done|]. split.
  - by rewrite Ht3, Ht2, Ht1, <- !app_assoc.
  - rewrite !sample_calls_app, (sample_calls_move_attempt _ Hmoves).
    unfold sample_calls at 1. simpl. by rewrite Hw.
Qed.

Lemma scan_pixels_sampled line_path n first count_data s cd' s' :
  scan_pixels env line_path (seq first n) count_data s = (Ret cd', s') →
  ∃ samples,
    pixels_sampled line_path first count_data s samples cd' s' ∧
    length samples = n.
Proof.
  revert first count_data s. induction n as [|n IH]; intros first count_data s H.
  - apply mret_inv in H as [-> ->]. exists []. split; [constructor|done].
  - cbn [seq scan_pixels] in H.
    apply bind_ret_inv in H as (cd1 & s1 & Hpixel & H).
    destruct (scan_pixel_sampled _ _ _ _ _ _ Hpixel)
      as (sample & bins & channel & calls & -> & Hbins & Hch & Hs & Ht & Hn).
    apply IH in H as (samples & Hrun & Hlen).
    exists (sample :: samples). split; [|simpl; by rewrite Hlen].
    by eapply sampled_next.
Qed.

(** The count array after the pixels: the means written, in place. *)
Lemma pixels_sampled_counts line_path first count_data s samples cd' s' :
  pixels_sampled line_path first count_data s samples cd' s' →
  first + length samples ≤ length count_data →
  cd' = take first count_data ++ samples ++
        drop (first + length samples) count_data.
Proof.
  induction 1 as [first count_data s
                 |first count_data s sample bins channel calls s1 samples
                    count_data' s' _ _ _ _ _ _ _ IH]; intros Hlen.
  - simpl. by rewrite Nat.add_0_r, take_drop.
  - simpl in Hlen. rewrite IH by (rewrite length_insert; lia).
    assert (first < length count_data) as Hfirst by lia.
    rewrite (take_S_r _ _ sample) by (by apply list_lookup_insert_eq).
    rewrite take_insert_ge by lia.
    rewrite drop_insert_lt by lia.
    cbn [length].
    replace (first + S (length samples)) with (S first + length samples)
      by lia.
    by rewrite <- app_assoc.
Qed.

(** The calls made by the pixels: one read of the count buffer each. *)
Lemma pixels_sampled_calls line_path first count_data s samples cd' s' :
  pixels_sampled line_path first count_data s samples cd' s' →
  ∃ calls, trace s' = trace s ++ calls ∧ sample_calls calls = length samples.
Proof.
  induction 1 as [first count_data s
                 |first count_data s sample bins channel calls s1 samples
                    count_data' s' _ _ _ _ Ht Hn _ (calls' & Ht' & Hn')].
  - exists []. by rewrite app_nil_r.
  - exists (calls ++ calls'). split.
    + by rewrite Ht', Ht, app_assoc.
    + rewrite sample_calls_app, Hn, Hn'. done.
Qed.

(** C8. A line scan over a 4 x N array, once its loop has started in the
    state [lined_up N s], ends in one of two ways only.  Either it
    returns: then the loop body has run and returned for each of the
    pixels 0 .. N-1 in order, each run has read the count buffer once (N
    reads in all) and written the mean of its window at its own entry, and
    the result is the column of these N means.  Or it raises: then there
    is a first pixel i < N whose body raises that exception; the bodies of
    the i pixels before it have run and returned in order (i reads of the
    count buffer), and the scan ends in the state where pixel i raised.  No
    result is returned before every pixel has been sampled. *)
Theorem scan_line_completes_or_raises N cell s :
  let line_path := LineNdarray2 4 N cell in
  match scan_line env line_path s with
  | (Ret result, s') =>
      ∃ samples,
        pixels_sampled line_path 0 (replicate N 0%float) (lined_up N s)
          samples samples s' ∧
        length samples = N ∧
        result = Array2 ((λ c, [c]) <$> samples) ∧
        ∃ calls, trace s' = trace s ++ calls ∧ sample_calls calls = N
  | (Raise e, s') =>
      ∃ i samples count_data s_i,
        i < N ∧
        pixels_sampled line_path 0 (replicate N 0%float) (lined_up N s)
          samples count_data s_i ∧
        length samples = i ∧
        (∃ calls, trace s_i = trace s ++ calls ∧ sample_calls calls = i) ∧
        scan_pixel env line_path i count_data s_i = (Raise e, s')
  end.
Proof.
  intros line_path. unfold line_path at 1. rewrite scan_line_ndarray2.
  fold line_path. rewrite run_bind.
  pose proof (scan_pixels_outcome line_path (seq 0 N) (replicate N 0%float)
                (lined_up N s)) as Hout.
  destruct (scan_pixels env line_path (seq 0 N) (replicate N 0%float)
              (lined_up N s)) as [[cd|e] s'] eqn:Hrun.
  - apply scan_pixels_sampled in Hrun as (samples & Hrun & Hlen).
    pose proof (pixels_sampled_counts _ _ _ _ _ _ _ Hrun) as Hcd.
    rewrite length_replicate, Hlen in Hcd. specialize (Hcd ltac:(lia)).
    rewrite drop_ge in Hcd by (rewrite length_replicate; lia).
    simpl in Hcd. rewrite app_nil_r in Hcd. subst cd.
    exists samples. split; [done|]. split; [done|]. split; [done|].
    destruct (pixels_sampled_calls _ _ _ _ _ _ _ Hrun) as (calls & Ht & Hn).
    exists calls. split; [done|]. by rewrite Hn.
  - destruct Hout as (before & i & after & cd_i & s_i & Hsplit & Hbefore & Hi).
    apply seq_app_cons_inv in Hsplit as [-> Hlt].
    apply scan_pixels_sampled in Hbefore as (samples & Hbefore & Hlen).
    exists i, samples, cd_i, s_i. split; [done|]. split; [done|].
    split; [done|]. split; [|done].
    destruct (pixels_sampled_calls _ _ _ _ _ _ _ Hbefore) as (calls & Ht & Hn).
    exists calls. split; [done|]. by rewrite Hn.
Qed.

(** *** The samples of a scan *)

(** The [n] most recent entries of a buffer (all of them when it holds
    fewer). *)
Definition most_recent {A} (n : nat) (buffer : list A) : list A :=
  drop (length buffer - n) buffer.

Lemma py_slice_from_neg {A} (k : Z) (buffer : list A) :
  (1 ≤ k)%Z → py_slice_from (- k) buffer = most_recent (Z.to_nat k) buffer.
Proof.
  intros Hk. unfold py_slice_from, most_recent.
  destruct (Z.ltb_spec (- k) 0) as [_|]; [|lia]. f_equal. lia.
Qed.




Lemma run_device_call {A} ev (f : World env → outcome A * World env) s :
  device_call env ev f s =
  ((f (world s)).1,
   Build_machine env (self s) (f (world s)).2 (trace s ++ [ev]) (logged s)).
Proof. unfold device_call. by destruct (f (world s)). Qed.




End LineScan.

(** *** Inputs that are not arrays *)

Section NotArray.

Context {env : environment}.
Implicit Types s : machine env.

(** The test [isinstance(line_path, (frozenset, list, set, tuple,
    np.ndarray))]. *)
Definition is_array_type (line_path : line_arg) : bool :=
  match line_path with
  | LineNotArray => false
  | _ => true
  end.

(** A well-formed 4 x N table: a 2-d array of four rows, or a list of four
    rows of one length. *)
Definition four_by_n (line_path : line_arg) : Prop :=
  (∃ n cell, line_path = LineNdarray2 4 n cell) ∨
  (∃ rows n, line_path = LineList rows ∧ length rows = 4 ∧
             Forall (λ r, length r = n) rows).

(** C5, as the code has it.  An input that is of none of the array types
    makes [scan_line] return the one-element sentinel [[-1.]]; an error is
    logged, no device is called and the adapter is unchanged.  (The shape
    of an input that is of an array type is not checked.) *)
Theorem scan_line_not_array_type line_path s :
  is_array_type line_path = false →
  scan_line env line_path s =
    (Ret (Array1 [(-1)%float]),
     with_log LogError
       "Logic interfuse: The given line to scan is not the right format or array type."
       s) ∧
  trace (scan_line env line_path s).2 = trace s ∧
  world (scan_line env line_path s).2 = world s ∧
  self (scan_line env line_path s).2 = self s.
Proof. destruct line_path; try discriminate. intros _. by repeat split. Qed.

End NotArray.

(** ** Activation: [on_activate] *)

Section Activation.

Context {env : environment}.
Implicit Types s : machine env.

(** The coordinates that [_current_position] holds, if it holds any. *)
Definition position_value (a : adapter) : option (list number) :=
  match _current_position a with
  | Some (PosNdarray v) => Some (PyFloat <$> v : list number)
  | Some (PosNdarrayInt v) => Some (PyInt <$> v : list number)
  | Some PosMiddleList =>
      match _middle_xyz_pos a with
      | Some middle => Some (PyFloat <$> middle : list number)
      | None => None
      end
  | Some PosNone0d | None => None
  end.

Definition midpoint (lo hi : float) : float := (0.5 * (lo + hi))%float.

Lemma dict_get_inv {V} (d : gmap string V) key v s s' :
  dict_get env d key s = (Ret v, s') → d !! key = Some v ∧ s' = s.
Proof. unfold dict_get. destruct (d !! key); by intros [= <- <-]. Qed.

Lemma run_dict_get {V} (d : gmap string V) key v s :
  d !! key = Some v → dict_get env d key s = (Ret v, s).
Proof. unfold dict_get. by intros ->. Qed.

Lemma run_constraints_to_range hw axis c s :
  hw !! axis = Some c →
  ∃ r, _constraints_to_range env hw axis s = (Ret r, s).
Proof.
  intros Hc. unfold _constraints_to_range.
  destruct (bool_decide (axis ∈ ["x"; "y"; "z"])); cbn [negb]; [|by eexists].
  rewrite (run_bind_ret _ _ _ _ _ (run_dict_get _ _ _ s Hc)).
  destruct (c !! "pos_min"); [|by eexists].
  rewrite (run_bind_ret _ _ _ _ _ (run_dict_get _ _ _ s Hc)).
  destruct (c !! "pos_max"); by eexists.
Qed.

Lemma run_fill_range hw i axis pos_range s :
  ∃ filled, fill_range env hw i axis pos_range s = (Ret filled, s).
Proof.
  unfold fill_range. destruct (hw !! axis) as [c|] eqn:Hc; [|by eexists].
  destruct (run_constraints_to_range hw axis c s Hc) as (r & Hr).
  rewrite (run_bind_ret _ _ _ _ _ Hr). by eexists.
Qed.

(** The comparison with the limits of the stage calls [get_constraints]
    and logs one line; it raises only when [get_constraints] does. *)
Lemma run_get_position_range_init hw w1 s :
  stage_get_constraints env (world s) = (Ret hw, w1) →
  ∃ line,
    _get_position_range_init env s =
    (Ret (), Build_machine env (self s) w1 (trace s ++ [EvGetConstraints])
               (logged s ++ [line])).
Proof.
  intros Hhw. unfold _get_position_range_init.
  rewrite run_bind, run_device_call, Hhw. cbn [fst snd].
  set (s1 := Build_machine env (self s) w1 (trace s ++ [EvGetConstraints])
               (logged s)).
  destruct (run_fill_range hw 0 "x" (replicate 4 [0%float; 0%float]) s1)
    as (r0 & H0). rewrite (run_bind_ret _ _ _ _ _ H0).
  destruct (run_fill_range hw 1 "y" r0 s1) as (r1 & H1).
  rewrite (run_bind_ret _ _ _ _ _ H1).
  destruct (run_fill_range hw 2 "z" r1 s1) as (r2 & H2).
  rewrite (run_bind_ret _ _ _ _ _ H2).
  destruct (run_fill_range hw 3 "a" r2 s1) as (r3 & H3).
  rewrite (run_bind_ret _ _ _ _ _ H3).
  rewrite (run_bind_ret _ _ s1 (_scanner_position_ranges (self s1)) s1)
    by reflexivity.
  destruct (table_eqb _ _); by eexists.
Qed.

(** The adapter once the range has been adopted and the midpoints
    computed. *)
Definition with_middle (table : list (list float)) (middle : list float)
    (a : adapter) : adapter :=
  set_middle_xyz_pos middle (set_position_range_attr table a).

Lemma run_activation_prologue hw w1 l0 h0 l1 h1 l2 h2 l3 h3 {A}
    (rest : M env A) s :
  stage_get_constraints env (world s) = (Ret hw, w1) →
  _scanner_position_ranges (self s) = [[l0; h0]; [l1; h1]; [l2; h2]; [l3; h3]] →
  ∃ line,
    (_get_position_range_init env;;
     position_range ← get_position_range env;
     update_self env (set_position_range_attr position_range);;
     update_self env
       (set_middle_xyz_pos [0%float; 0%float; 0%float; 0%float]);;
     fill_middle env (seq 0 4);;
     rest) s =
    rest (Build_machine env
            (with_middle [[l0; h0]; [l1; h1]; [l2; h2]; [l3; h3]]
               [midpoint l0 h0; midpoint l1 h1; midpoint l2 h2; midpoint l3 h3]
               (self s))
            w1 (trace s ++ [EvGetConstraints]) (logged s ++ [line])).
Proof.
  intros Hhw Hranges.
  destruct (run_get_position_range_init hw w1 s Hhw) as (line & Hinit).
  exists line. rewrite (run_bind_ret _ _ _ _ _ Hinit).
  rewrite run_bind. unfold get_position_range, read_self at 1. cbn [self].
  rewrite Hranges. reflexivity.
Qed.

(** *** Reading the stage position *)

Definition polled (w : World env) (calls : list event) s : machine env :=
  Build_machine env (self s) w (trace s ++ calls) (logged s).

Lemma run_read_stage_position d w' x y z s :
  stage_get_pos env (world s) = (Ret d, w') →
  d !! "x" = Some x → d !! "y" = Some y → d !! "z" = Some z →
  read_stage_position env s =
  (Ret (Some [x; y; z; PyInt int64_zero]), polled w' [EvGetPos] s).
Proof.
  intros Hpos Hx Hy Hz. unfold read_stage_position.
  rewrite run_bind, run_device_call, Hpos. cbn [fst snd].
  rewrite (run_bind_ret _ _ _ _ _ (run_dict_get _ _ _ _ Hx)).
  rewrite (run_bind_ret _ _ _ _ _ (run_dict_get _ _ _ _ Hy)).
  by rewrite (run_bind_ret _ _ _ _ _ (run_dict_get _ _ _ _ Hz)).
Qed.

Lemma run_read_stage_position_raise e w' s :
  stage_get_pos env (world s) = (Raise e, w') →
  read_stage_position env s = (Raise e, polled w' [EvGetPos] s).
Proof.
  intros Hpos. unfold read_stage_position.
  by rewrite run_bind, run_device_call, Hpos.
Qed.

Lemma polled_polled w1 w2 calls1 calls2 s :
  polled w2 calls2 (polled w1 calls1 s) = polled w2 (calls1 ++ calls2) s.
Proof. unfold polled. simpl. by rewrite app_assoc. Qed.

Lemma init_position_at_once d w' x y z s :
  stage_get_pos env (world s) = (Ret d, w') →
  d !! "x" = Some x → d !! "y" = Some y → d !! "z" = Some z →
  _get_scanner_position_init env s =
  (Ret (Some [x; y; z; PyInt int64_zero]), polled w' [EvGetPos] s).
Proof.
  intros Hpos Hx Hy Hz. unfold _get_scanner_position_init, try_except.
  by rewrite (run_read_stage_position d w' x y z s Hpos Hx Hy Hz).
Qed.

(** After a first failure that is not a [KeyError]: the pause, then the
    second query and nothing more. *)
Lemma init_position_retry e w1 w2 s :
  stage_get_pos env (world s) = (Raise e, w1) → is_KeyError e = false →
  time_sleep env 0.1%float w1 = (Ret (), w2) →
  _get_scanner_position_init env s =
  try_except env (read_stage_position env) is_KeyError
    (λ _,
       log_msg env LogError
         "Logic Interfuse can't get stage position from hardware module, twice. Check device connection!";;
       mret None)
    (polled w2 [EvGetPos; EvSleep 0.1%float] s).
Proof.
  intros Hpos He Hsleep. unfold _get_scanner_position_init.
  unfold try_except at 1.
  rewrite (run_read_stage_position_raise e w1 s Hpos). cbn beta iota.
  rewrite He, run_bind, run_device_call. cbn [world polled].
  rewrite Hsleep. cbn [fst snd trace self logged polled].
  by rewrite <- app_assoc.
Qed.

Lemma init_position_on_retry e w1 w2 d w3 x y z s :
  stage_get_pos env (world s) = (Raise e, w1) → is_KeyError e = false →
  time_sleep env 0.1%float w1 = (Ret (), w2) →
  stage_get_pos env w2 = (Ret d, w3) →
  d !! "x" = Some x → d !! "y" = Some y → d !! "z" = Some z →
  _get_scanner_position_init env s =
  (Ret (Some [x; y; z; PyInt int64_zero]),
   polled w3 [EvGetPos; EvSleep 0.1%float; EvGetPos] s).
Proof.
  intros Hpos He Hsleep Hpos2 Hx Hy Hz.
  rewrite (init_position_retry e w1 w2 s Hpos He Hsleep). unfold try_except.
  rewrite (run_read_stage_position d w3 x y z
             (polled w2 [EvGetPos; EvSleep 0.1%float] s) Hpos2 Hx Hy Hz).
  by rewrite polled_polled.
Qed.

Lemma init_position_fails_twice e1 w1 w2 e2 w3 s :
  stage_get_pos env (world s) = (Raise e1, w1) → is_KeyError e1 = false →
  time_sleep env 0.1%float w1 = (Ret (), w2) →
  stage_get_pos env w2 = (Raise e2, w3) → is_KeyError e2 = false →
  _get_scanner_position_init env s =
  (Raise e2, polled w3 [EvGetPos; EvSleep 0.1%float; EvGetPos] s).
Proof.
  intros Hpos He Hsleep Hpos2 He2.
  rewrite (init_position_retry e1 w1 w2 s Hpos He Hsleep). unfold try_except.
  rewrite (run_read_stage_position_raise e2 w3
             (polled w2 [EvGetPos; EvSleep 0.1%float] s) Hpos2), He2.
  by rewrite polled_polled.
Qed.

(** The stage position is read: by the first query, or by the one retry
    after a first failure that is not a [KeyError]. *)
Inductive position_read (w : World env)
    : gmap string number → World env → list event → Prop :=
  | read_at_once d w' :
      stage_get_pos env w = (Ret d, w') →
      position_read w d w' [EvGetPos]
  | read_on_retry e w1 w2 d w3 :
      stage_get_pos env w = (Raise e, w1) → is_KeyError e = false →
      time_sleep env 0.1%float w1 = (Ret (), w2) →
      stage_get_pos env w2 = (Ret d, w3) →
      position_read w d w3 [EvGetPos; EvSleep 0.1%float; EvGetPos].

Lemma init_position_read w d w' calls x y z s :
  world s = w → position_read w d w' calls →
  d !! "x" = Some x → d !! "y" = Some y → d !! "z" = Some z →
  _get_scanner_position_init env s =
  (Ret (Some [x; y; z; PyInt int64_zero]), polled w' calls s).
Proof.
  intros <- Hread Hx Hy Hz. destruct Hread.
  - by apply (init_position_at_once d).
  - by eapply init_position_on_retry.
Qed.

(** The entries of the array built from the answers [x], [y], [z] of the
    stage and the integer 0: the answers and the integer 0 when the three
    answers are integers; else the answers as floats and the float 0. *)
Definition seeded (x y z : number) : list number :=
  match x, y, z with
  | PyInt _, PyInt _, PyInt _ => [x; y; z; PyInt int64_zero]
  | _, _, _ =>
      PyFloat <$> [number_to_float x; number_to_float y; number_to_float z;
                   0%float]
  end.

Lemma tolist_seeded x y z s :
  _current_position (self s) =
    Some (np_array (Some [x; y; z; PyInt int64_zero])) →
  get_scanner_position env s = (Ret (Some (seeded x y z)), s).
Proof.
  intros H. unfold get_scanner_position.
  rewrite (run_bind_ret _ _ _ _ _ (run_read_attr _ _ _ H)).
  by destruct x, y, z.
Qed.

(** C10. With a 4 x 2 range table and a stage that answers
    [get_constraints], when the stage position is read at activation (at
    once or on the retry) and has the entries x, y and z, activation
    returns 0 and [get_scanner_position] then returns [x, y, z, 0] (as
    floats [x, y, z, 0.0] when the stage reports floats): the fourth
    coordinate is 0 whatever entry "a" the stage reports, or none. *)
Theorem activation_seeds_a_with_zero hw w1 d w2 calls x y z
    l0 h0 l1 h1 l2 h2 l3 h3 s :
  _scanner_position_ranges (self s) = [[l0; h0]; [l1; h1]; [l2; h2]; [l3; h3]] →
  stage_get_constraints env (world s) = (Ret hw, w1) →
  position_read w1 d w2 calls →
  d !! "x" = Some x → d !! "y" = Some y → d !! "z" = Some z →
  ∃ s',
    on_activate env s = (Ret 0%Z, s') ∧
    get_scanner_position env s' = (Ret (Some (seeded x y z)), s') ∧
    (∀ fx fy fz, x = PyFloat fx → y = PyFloat fy → z = PyFloat fz →
       get_scanner_position env s' =
         (Ret (Some [PyFloat fx; PyFloat fy; PyFloat fz; PyFloat 0]), s')) ∧
    (∀ position, (get_scanner_position env s').1 = Ret (Some position) →
                 position !! 3 = Some (PyFloat 0) ∨
                 position !! 3 = Some (PyInt int64_zero)).
Proof.
  intros Hranges Hhw Hread Hx Hy Hz. unfold on_activate.
  lazymatch goal with
  | |- context [mbind (λ _, ?rest) (fill_middle env (seq 0 4))] =>
      destruct (run_activation_prologue hw w1 l0 h0 l1 h1 l2 h2 l3 h3 rest s
                  Hhw Hranges) as (line & Hpro)
  end.
  rewrite Hpro. clear Hpro. rewrite run_bind. unfold try_except.
  rewrite run_bind.
  erewrite (init_position_read w1 d w2 calls x y z); [|done..].
  cbn beta iota. eexists. split; [reflexivity|].
  rewrite (tolist_seeded x y z) by reflexivity.
  split; [reflexivity|]. split.
  - by intros fx fy fz -> -> ->.
  - intros position [= <-]. destruct x, y, z; simpl; auto.
Qed.

(** C6, as the code has it.  With a 4 x 2 range table and a stage that
    answers [get_constraints]: when the first position query raises an
    exception other than [KeyError], the query is made once more after a
    pause of 0.1 s; when this second query also raises an exception other
    than [KeyError], the position is bound to the midpoints
    [0.5 * (min + max)] of the four ranges, an error is logged and
    activation returns the error code -1 without raising.  The stage has
    then been queried exactly twice. *)
Theorem activation_falls_back_to_midpoints hw w1 e1 w2 w3 e2 w4
    l0 h0 l1 h1 l2 h2 l3 h3 s :
  _scanner_position_ranges (self s) = [[l0; h0]; [l1; h1]; [l2; h2]; [l3; h3]] →
  stage_get_constraints env (world s) = (Ret hw, w1) →
  stage_get_pos env w1 = (Raise e1, w2) → is_KeyError e1 = false →
  time_sleep env 0.1%float w2 = (Ret (), w3) →
  stage_get_pos env w3 = (Raise e2, w4) → is_KeyError e2 = false →
  ∃ s',
    on_activate env s = (Ret (-1)%Z, s') ∧
    trace s' =
      trace s ++ [EvGetConstraints; EvGetPos; EvSleep 0.1%float; EvGetPos] ∧
    world s' = w4 ∧
    position_value (self s') =
      Some (PyFloat <$>
            [midpoint l0 h0; midpoint l1 h1; midpoint l2 h2; midpoint l3 h3]) ∧
    last (logged s') =
      Some (LogError,
            "Logic interfuse activation: failed ! Set cross to middle.").
Proof.
  intros Hranges Hhw Hpos1 He1 Hsleep Hpos2 He2. unfold on_activate.
  lazymatch goal with
  | |- context [mbind (λ _, ?rest) (fill_middle env (seq 0 4))] =>
      destruct (run_activation_prologue hw w1 l0 h0 l1 h1 l2 h2 l3 h3 rest s
                  Hhw Hranges) as (line & Hpro)
  end.
  rewrite Hpro. clear Hpro. rewrite run_bind. unfold try_except.
  rewrite run_bind.
  erewrite (init_position_fails_twice e1 w2 w3 e2 w4); [|done..].
  cbn beta iota. eexists. split; [reflexivity|].
  split; [cbn [trace polled]; by rewrite <- app_assoc|].
  split; [reflexivity|]. split; [reflexivity|].
  cbn [logged polled]. by rewrite last_snoc.
Qed.

End Activation.

(** * Runs in the laboratory *)

Module Runs.

Import Lab.

Definition fresh : machine env := bench activated stage_ok.

Definition three_pixels : line_arg :=
  LineNdarray2 4 3
    (nth_row [[1e-6; 2e-6; 3e-6]; [0; 0; 0];
              [155e-6; 155e-6; 155e-6]; [0; 0; 0]]%float).

Definition five_rows : line_arg :=
  LineNdarray2 5 1 (nth_row [[1e-6]; [2e-6]; [155e-6]; [0]; [9]]%float).

Definition inverted : list (list float) :=
  [[0; 300e-6]; [300e-6; 0]; [150e-6; 160e-6]; [-10; 10]]%float.


Definition answering (answers : list (outcome (gmap string number))) : lab :=
  {| stage_up := true; pos_answers := answers; counts := [[7%float]] |}.

Definition reported : gmap string number :=
  <["x" := PyFloat 1e-6]> (<["y" := PyFloat 2e-6]> (<["z" := PyFloat 155e-6]>
    (<["a" := PyFloat 5]> ∅))).

(** A table with a row of three entries. *)
Definition three_entries : list (list float) :=
  [[0; 300e-6]; [0; 150e-6; 300e-6]; [150e-6; 160e-6]; [-10; 10]]%float.


(** A stage that reports its position in integer steps. *)
Definition int64_of (z : Z) (H : fits_int64 z = true) : int64 :=
  {| int64_Z := z; int64_fits := H |}.

Definition reported_steps : gmap string number :=
  <["x" := PyInt (int64_of 1 eq_refl)]>
    (<["y" := PyInt (int64_of 2 eq_refl)]>
       (<["z" := PyInt (int64_of 155 eq_refl)]> ∅)).

End Runs.

Section RunLemmas.

Import Lab Runs.

Lemma ranges_valid : valid_range_table ranges.
Proof.
  split; [reflexivity|]. intros pos Hin.
  repeat (apply elem_of_cons in Hin as [->|Hin]);
    [by eexists _, _..|by apply elem_of_nil in Hin].
Qed.




End RunLemmas.

Section Witnesses.

Import Lab Runs.

(** The example range table is stored and returned. *)
Lemma set_position_range_valid_at_ranges :
  ∃ s', set_position_range env (RangeTable ranges)
          (bench (init default_range) stage_ok) = (Ret 0%Z, s') ∧
        get_position_range env s' = (Ret ranges, s').
Proof. apply set_position_range_valid, ranges_valid. Defined.

(** C4 at
    [set_position_range([[0, 300e-6], [300e-6, 0], [150e-6, 160e-6], [-10, 10]])]
    (a row with min > max) and at a table whose second row has three
    entries, on an adapter that holds the example table: the stored table
    is unchanged, but the call does not return the error code -1 and logs
    nothing: it raises [TypeError] while it builds the error message. *)
Theorem set_position_range_invalid_row_raises :
  let s := fresh in
  length inverted = 4 ∧ [300e-6; 0]%float ∈ inverted ∧
  PrimFloat.ltb 0 300e-6 = true ∧
  set_position_range env (RangeTable inverted) s = (Raise TypeError, s) ∧
  length three_entries = 4 ∧ [0; 150e-6; 300e-6]%float ∈ three_entries ∧
  set_position_range env (RangeTable three_entries) s = (Raise TypeError, s) ∧
  logged s = [] ∧
  get_position_range env s = (Ret ranges, s).
Proof.
  intros s.
  assert ([300e-6; 0]%float ∈ inverted) as Hin1.
  { apply list_elem_of_lookup. by exists 1. }
  assert ([0; 150e-6; 300e-6]%float ∈ three_entries) as Hin2.
  { apply list_elem_of_lookup. by exists 1. }
  split; [reflexivity|]. split; [done|]. split; [reflexivity|].
  split.
  { apply (set_position_range_bad_row inverted _ s eq_refl Hin1).
    right. by eexists _, _. }
  split; [reflexivity|]. split; [done|]. split.
  { apply (set_position_range_bad_row three_entries _ s eq_refl Hin2).
    left. simpl. lia. }
  split; reflexivity.
Qed.

(** C1 at [scanner_set_position(x=100e-6, y=310e-6)] with the example
    ranges: y is strictly outside [0, 300e-6]; the call returns the error
    code and sends no move, but x has already been written, so
    [get_scanner_position] no longer returns what it returned before. *)
Theorem scanner_set_position_rejected_after_write :
  let s := fresh in
  let run :=
    scanner_set_position env (Some 100e-6%float) (Some 310e-6%float)
      None None s in
  outside ranges 1 310e-6%float ∧
  run.1 = Ret (-1)%Z ∧
  trace run.2 = [] ∧
  get_scanner_position env s =
    (Ret (Some (PyFloat <$> [0; 0; 155e-6; 0]%float)), s) ∧
  get_scanner_position env run.2 =
    (Ret (Some (PyFloat <$> [100e-6; 0; 155e-6; 0]%float)), run.2).
Proof.
  repeat split.
  exists 0%float, 300e-6%float. split; [by eexists|by right].
Qed.

(** C3 at [scanner_set_position(x=100e-6)] on a stage whose [move_abs]
    raises: x passes the range check, the command is sent and the stage
    raises; the call logs that it cannot set the stage position and returns
    the error code -1, yet [get_scanner_position] reports the new x: the
    position was written before the command was sent and is not restored. *)
Theorem scanner_set_position_stage_down_position_moved :
  let s := bench activated stage_down in
  let run :=
    scanner_set_position env (Some 100e-6%float) None None None s in
  in_range ranges 0 100e-6%float ∧
  (stage_move_abs env (command (Some 100e-6%float) None None None)
     (world s)).1 = Raise HardwareError ∧
  run.1 = Ret (-1)%Z ∧
  trace run.2 = [EvMoveAbs (command (Some 100e-6%float) None None None)] ∧
  logged run.2 =
    [(LogError, "Logic interfuse can't set stage position.")] ∧
  get_scanner_position env s =
    (Ret (Some (PyFloat <$> [0; 0; 155e-6; 0]%float)), s) ∧
  get_scanner_position env run.2 =
    (Ret (Some (PyFloat <$> [100e-6; 0; 155e-6; 0]%float)), run.2) ∧
  _current_position (self run.2) ≠ _current_position (self s).
Proof.
  repeat split.
  - exists 0%float, 300e-6%float. split; [by eexists|by split].
  - intros H.
    apply (f_equal (λ p, match p with
                         | Some (PosNdarray (v :: _)) => PrimFloat.eqb v 0
                         | _ => true
                         end)) in H.
    vm_compute in H. discriminate.
Qed.

(** The accepting run at [scanner_set_position(x=100e-6, y=50e-6)] on a
    stage that accepts the move. *)
Lemma scanner_set_position_in_range_at_fresh :
  let x := Some 100e-6%float in
  let y := Some 50e-6%float in
  let answer := stage_move_abs env (command x y None None) (world fresh) in
  ∃ s',
    scanner_set_position env x y None None fresh =
      (Ret (if is_ret answer.1 then 0%Z else (-1)%Z), s') ∧
    trace s' = trace fresh ++ [EvMoveAbs (command x y None None)] ∧
    world s' = answer.2 ∧
    get_scanner_position env s' =
      (Ret (Some (PyFloat <$> target x y None None start)), s') ∧
    (∀ i v, [x; y; None; None] !! i = Some (Some v) →
            target x y None None start !! i = Some v) ∧
    (∀ i, [x; y; None; None] !! i = Some None →
          target x y None None start !! i = start !! i).
Proof.
  apply (scanner_set_position_in_range (env:=env)
           (Some 100e-6%float) (Some 50e-6%float) None None start fresh).
  - reflexivity.
  - reflexivity.
  - exists 0%float, 300e-6%float. split; [by eexists|by split].
  - exists 0%float, 300e-6%float. split; [by eexists|by split].
  - exact I.
  - exact I.
Defined.

(** Against C5 as stated: a 5 x 1 array is not a 4 x N table, yet
    [scan_line] sends a move to the stage and returns a sample, not the
    sentinel. *)
Lemma scan_line_five_rows_moves_stage :
  let run := scan_line env five_rows fresh in
  ¬ four_by_n five_rows ∧
  run.1 = Ret (Array2 [[1e-6%float]]) ∧
  trace run.2 =
    [EvMoveAbs (command (Some 1e-6%float) (Some 2e-6%float)
                  (Some 155e-6%float) (Some 0%float));
     EvOnTarget; EvCountdata].
Proof.
  split; [|split].
  - intros [(n & cell & H)|(rows & n & H & _)]; discriminate.
  - vm_compute. reflexivity.
  - vm_compute. reflexivity.
Qed.


(** C5 as amended, at an input that is not of an array type. *)
Lemma scan_line_not_array_type_witness :
  scan_line env LineNotArray fresh =
    (Ret (Array1 [(-1)%float]),
     with_log LogError
       "Logic interfuse: The given line to scan is not the right format or array type."
       fresh) ∧
  trace (scan_line env LineNotArray fresh).2 = trace fresh ∧
  world (scan_line env LineNotArray fresh).2 = world fresh ∧
  self (scan_line env LineNotArray fresh).2 = self fresh.
Proof.
  apply (scan_line_not_array_type (env:=env) LineNotArray fresh).
  reflexivity.
Defined.


(** C7 at a scan of three pixels. *)
Lemma scan_line_barrier_then_delay_witness :
  let run := scan_line env three_pixels fresh in
  ∃ first rest,
    move_attempt first ∧ Forall move_attempt rest ∧ length rest = 3 - 1 ∧
    let calls :=
      (first ++ [EvOnTarget; EvCountdata]) ++
      concat ((λ m, m ++ [EvSleep 0.02%float; EvCountdata]) <$> rest) in
    trace run.2 = trace fresh ++ calls ∧ barrier_calls calls = 1.
Proof.
  apply (scan_line_barrier_then_delay (env:=env) 3
           (nth_row [[1e-6; 2e-6; 3e-6]; [0; 0; 0];
                     [155e-6; 155e-6; 155e-6]; [0; 0; 0]]%float)
           0.02%float fresh
           (Array2 [[1e-6]; [2e-6]; [3e-6]]%float)).
  - lia.
  - reflexivity.
  - vm_compute. reflexivity.
Defined.

(** Against C6 as stated: the first position query raises [KeyError]; no
    second query is made (a retry would have been answered), activation
    returns 0 and the position is the 0-d array of [None], not the
    midpoints. *)
Lemma activation_key_error_no_retry :
  let w := answering [Raise KeyError; Ret reported] in
  let run := on_activate env (bench (init ranges) w) in
  (stage_get_pos env w).1 = Raise KeyError ∧
  run.1 = Ret 0%Z ∧
  trace run.2 = [EvGetConstraints; EvGetPos] ∧
  _current_position (self run.2) = Some PosNone0d ∧
  position_value (self run.2) = None ∧
  get_scanner_position env run.2 = (Ret None, run.2).
Proof.
  intros w run.
  split; [reflexivity|]. split; [by vm_compute|]. split; [by vm_compute|].
  split; [by vm_compute|]. split; by vm_compute.
Qed.

(** C6 as amended, at a stage whose two position queries both raise a
    hardware error. *)
Lemma activation_falls_back_to_midpoints_witness :
  let w := answering [Raise HardwareError; Raise HardwareError] in
  ∃ s',
    on_activate env (bench (init ranges) w) = (Ret (-1)%Z, s') ∧
    trace s' =
      [] ++ [EvGetConstraints; EvGetPos; EvSleep 0.1%float; EvGetPos] ∧
    world s' = answering [] ∧
    position_value (self s') =
      Some (PyFloat <$>
            [midpoint 0 300e-6; midpoint 0 300e-6; midpoint 150e-6 160e-6;
             midpoint (-10) 10]%float) ∧
    last (logged s') =
      Some (LogError,
            "Logic interfuse activation: failed ! Set cross to middle.").
Proof.
  apply (activation_falls_back_to_midpoints (env:=env) ∅
           (answering [Raise HardwareError; Raise HardwareError])
           HardwareError (answering [Raise HardwareError])
           (answering [Raise HardwareError]) HardwareError (answering [])
           0%float 300e-6%float 0%float 300e-6%float
           150e-6%float 160e-6%float (-10)%float 10%float
           (bench (init ranges)
              (answering [Raise HardwareError; Raise HardwareError])));
    reflexivity.
Defined.

(** C10 at a stage that reports a = 5. *)
Lemma activation_seeds_a_with_zero_witness :
  reported !! "a" = Some (PyFloat 5) ∧
  ∃ s',
    on_activate env (bench (init ranges) (answering [Ret reported])) =
      (Ret 0%Z, s') ∧
    get_scanner_position env s' =
      (Ret (Some (seeded (PyFloat 1e-6) (PyFloat 2e-6) (PyFloat 155e-6))),
       s') ∧
    (∀ fx fy fz,
       PyFloat 1e-6 = PyFloat fx → PyFloat 2e-6 = PyFloat fy →
       PyFloat 155e-6 = PyFloat fz →
       get_scanner_position env s' =
         (Ret (Some [PyFloat fx; PyFloat fy; PyFloat fz; PyFloat 0]), s')) ∧
    (∀ position, (get_scanner_position env s').1 = Ret (Some position) →
                 position !! 3 = Some (PyFloat 0) ∨
                 position !! 3 = Some (PyInt int64_zero)).
Proof.
  split; [reflexivity|].
  apply (activation_seeds_a_with_zero (env:=env) ∅
           (answering [Ret reported]) reported (answering []) [EvGetPos]
           (PyFloat 1e-6) (PyFloat 2e-6) (PyFloat 155e-6)
           0%float 300e-6%float 0%float 300e-6%float
           150e-6%float 160e-6%float (-10)%float 10%float
           (bench (init ranges) (answering [Ret reported]))).
  - reflexivity.
  - reflexivity.
  - by apply (read_at_once (env:=env)).
  - reflexivity.
  - reflexivity.
  - reflexivity.
Defined.

End Witnesses.

(** * Further properties of the position calls *)

Section PositionSafety.

Context {env : environment}.
Implicit Types s : machine env.




(** Computations that keep the element type of the position. *)
Definition KeepsKind {A} (m : M env A) : Prop :=
  ∀ s r s', m s = (r, s') →
    int_array (_current_position (self s')) =
    int_array (_current_position (self s)).

Lemma KeepsKind_bind {A B} (m : M env A) (f : A → M env B) :
  KeepsKind m → (∀ a, KeepsKind (f a)) → KeepsKind (m ≫= f).
Proof.
  intros Hm Hf s r s'. rewrite run_bind.
  destruct (m s) as [[a|e] s1] eqn:E; intros H.
  - rewrite (Hf _ _ _ _ H). by eapply Hm.
  - inversion H; subst. by eapply Hm.
Qed.

Lemma KeepsKind_same_self {A} (m : M env A) :
  (∀ s r s', m s = (r, s') → self s' = self s) → KeepsKind m.
Proof. intros H s r s' E. by rewrite (H _ _ _ E). Qed.

Lemma KeepsKind_ret {A} (a : A) : KeepsKind (mret a : M env A).
Proof. by intros s r s' [= <- <-]. Qed.

Lemma KeepsKind_raise {A} e : KeepsKind (raise env e : M env A).
Proof. by intros s r s' [= <- <-]. Qed.

Lemma KeepsKind_read_attr {A} (f : adapter → option A) :
  KeepsKind (read_attr env f).
Proof.
  apply KeepsKind_bind; [by intros s r s' [= <- <-]|].
  intros [a|]; [apply KeepsKind_ret|apply KeepsKind_raise].
Qed.

Lemma KeepsKind_py_index {A} (l : list A) i : KeepsKind (py_index env l i).
Proof.
  unfold py_index. destruct (l !! i); [apply KeepsKind_ret|apply KeepsKind_raise].
Qed.

Lemma KeepsKind_log_msg lvl msg : KeepsKind (log_msg env lvl msg).
Proof. by intros s r s' [= <- <-]. Qed.

Lemma KeepsKind_range_bound i j : KeepsKind (range_bound env i j).
Proof.
  apply KeepsKind_bind; [by intros s r s' [= <- <-]|]. intros ranges.
  apply KeepsKind_bind; [apply KeepsKind_py_index|]. intros row.
  apply KeepsKind_py_index.
Qed.

Lemma KeepsKind_store_position i v : KeepsKind (store_position env i v).
Proof.
  intros s r s' H. unfold store_position in H. rewrite run_bind in H.
  destruct (read_attr env _current_position s) as [[p|e] s1] eqn:E.
  - apply read_attr_inv in E as [Hp ->]. rewrite Hp.
    destruct p as [arr| | |arr].
    + destruct (i <? length arr)%nat; unfold update_self, raise in H;
        inversion H; subst; simpl; by rewrite ?Hp.
    + unfold raise in H. inversion H; subst. by rewrite Hp.
    + rewrite run_bind in H.
      destruct (read_attr env _middle_xyz_pos s) as [[mid|e] s1] eqn:E2.
      * apply read_attr_inv in E2 as [_ ->].
        destruct (i <? length mid)%nat; unfold update_self, raise in H;
          inversion H; subst; simpl; by rewrite ?Hp.
      * inversion H; subst.
        rewrite (KeepsKind_read_attr _ _ _ _ E2). by rewrite Hp.
    + destruct (i <? length arr)%nat; [destruct (float_to_int64 v)|];
        unfold update_self, raise in H;
        inversion H; subst; simpl; by rewrite ?Hp.
  - inversion H; subst. apply (KeepsKind_read_attr _ _ _ _ E).
Qed.

Lemma KeepsKind_load_position i : KeepsKind (load_position env i).
Proof.
  apply KeepsKind_bind; [apply KeepsKind_read_attr|]. intros [arr| | |arr].
  - apply KeepsKind_bind; [apply KeepsKind_py_index|]. intros cur.
    apply KeepsKind_ret.
  - apply KeepsKind_raise.
  - apply KeepsKind_bind; [apply KeepsKind_read_attr|]. intros mid.
    apply KeepsKind_bind; [apply KeepsKind_py_index|]. intros cur.
    apply KeepsKind_ret.
  - apply KeepsKind_bind; [apply KeepsKind_py_index|]. intros cur.
    apply KeepsKind_ret.
Qed.

(** Whatever the state and the outcome, a block keeps the element type of
    the position. *)
Lemma set_axis_keeps_kind i key msg v move_dict :
  KeepsKind (set_axis env i key msg v move_dict).
Proof.
  destruct v as [v|]; [|apply KeepsKind_ret]. unfold set_axis.
  apply KeepsKind_bind; [apply KeepsKind_range_bound|]. intros lo.
  apply KeepsKind_bind.
  - destruct (PrimFloat.leb lo v); [|apply KeepsKind_ret].
    apply KeepsKind_bind; [apply KeepsKind_range_bound|]. intros hi.
    apply KeepsKind_ret.
  - intros [|]; cbn [negb].
    + apply KeepsKind_bind; [apply KeepsKind_store_position|]. intros _.
      apply KeepsKind_bind; [apply KeepsKind_load_position|]. intros cur.
      apply KeepsKind_ret.
    + apply KeepsKind_bind; [apply KeepsKind_log_msg|]. intros _.
      apply KeepsKind_ret.
Qed.

(** Whatever the state, the coordinates and the outcome, a call keeps the
    element type of the position. *)
Lemma scanner_set_position_keeps_kind x y z a :
  KeepsKind (scanner_set_position env x y z a).
Proof.
  intros s r s'. rewrite scanner_set_position_blocks. revert s r s'.
  apply KeepsKind_bind; [apply set_axis_keeps_kind|].
  intros [c|d0]; [apply KeepsKind_ret|].
  apply KeepsKind_bind; [apply set_axis_keeps_kind|].
  intros [c|d1]; [apply KeepsKind_ret|].
  apply KeepsKind_bind; [apply set_axis_keeps_kind|].
  intros [c|d2]; [apply KeepsKind_ret|].
  apply KeepsKind_bind; [apply set_axis_keeps_kind|].
  intros [c|d3]; [apply KeepsKind_ret|].
  intros s r s'. rewrite run_send. by intros [= <- <-].
Qed.




End PositionSafety.

Section PositionRefusals.

Context {env : environment}.
Implicit Types s : machine env.

Lemma leb_nan_r (x : float) : PrimFloat.leb x nan = false.
Proof.
  rewrite leb_spec.
  replace (Prim2SF nan) with S754_nan by (vm_compute; reflexivity).
  unfold SFleb, SFcompare. by destruct (Prim2SF x).
Qed.

Lemma leb_nan_l (x : float) : PrimFloat.leb nan x = false.
Proof.
  rewrite leb_spec.
  replace (Prim2SF nan) with S754_nan by (vm_compute; reflexivity).
  reflexivity.
Qed.

(** [v] fails the check [lo <= v <= hi] of axis [i]. *)
Definition fails_check (ranges : list (list float)) (i : nat) (v : float)
    : Prop :=
  ∃ lo hi, bounds ranges i lo hi ∧
           (PrimFloat.leb lo v = false ∨ PrimFloat.leb v hi = false).

Lemma set_axis_refuses i key msg v move_dict s :
  fails_check (_scanner_position_ranges (self s)) i v →
  set_axis env i key msg (Some v) move_dict s =
  (Ret (inl (-1)%Z), with_log LogError msg s).
Proof.
  intros (lo & hi & (row & Hrow & Hlo & Hhi) & Hfail).
  unfold set_axis.
  rewrite (run_bind_ret _ _ _ _ _ (run_range_bound _ _ _ _ _ _ eq_refl Hrow Hlo)).
  destruct (PrimFloat.leb lo v) eqn:Hle1; [|reflexivity].
  rewrite run_bind, (run_bind_ret _ _ _ _ _
                       (run_range_bound _ _ _ _ _ _ eq_refl Hrow Hhi)).
  cbn [mret M_ret]. destruct Hfail as [|Hle2]; [congruence|].
  by rewrite Hle2.
Qed.

(** A block of a ready adapter, with the code it returns and what it does
    to a coordinate that fails its check. *)
Lemma set_axis_checked i key msg v move_dict s :
  position_ok s → ranges_ok s → i < 4 →
  ∃ r s', set_axis env i key msg v move_dict s = (Ret r, s') ∧
          position_ok s' ∧ ranges_ok s' ∧ quiet s s' ∧
          (∀ c, r = inl c → c = (-1)%Z) ∧
          (∀ w, v = Some w →
                fails_check (_scanner_position_ranges (self s)) i w →
                r = inl (-1)%Z).
Proof.
  intros Hpos Hranges Hi.
  destruct (set_axis_ready i key msg v move_dict s Hpos Hranges Hi)
    as (r & s' & E & Hp & Hr & Hq & Hc & _).
  exists r, s'. repeat split; try done; try apply Hq.
  intros w -> Hfail.
  rewrite (set_axis_refuses i key msg w move_dict s Hfail) in E. congruence.
Qed.

(** A call on a ready adapter with a provided coordinate that fails its
    check returns the error code; no device is called. *)
Lemma scanner_set_position_refuses x y z a s :
  position_ok s → ranges_ok s →
  (∃ i v, [x; y; z; a] !! i = Some (Some v) ∧
          fails_check (_scanner_position_ranges (self s)) i v) →
  ∃ s', scanner_set_position env x y z a s = (Ret (-1)%Z, s') ∧
        trace s' = trace s ∧ world s' = world s.
Proof.
  intros Hp Hr (i & v & Hi & Hout). rewrite scanner_set_position_blocks.
  destruct (set_axis_checked 0 "x" "You want to set x-axis out of scan-config range."
              x ∅ s Hp Hr ltac:(lia))
    as ([c|d0] & s0 & E0 & Hp0 & Hr0 & Q0 & Hc0 & Ho0);
    rewrite (run_bind_ret _ _ _ _ _ E0);
    [rewrite (Hc0 c eq_refl); exists s0; repeat split; apply Q0|].
  destruct (set_axis_checked 1 "y" "You want to set y-axis out of scan-config range."
              y d0 s0 Hp0 Hr0 ltac:(lia))
    as ([c|d1] & s1 & E1 & Hp1 & Hr1 & Q1 & Hc1 & Ho1);
    rewrite (run_bind_ret _ _ _ _ _ E1);
    pose proof (quiet_trans _ _ _ Q0 Q1) as Q01;
    [rewrite (Hc1 c eq_refl); exists s1; repeat split; apply Q01|].
  destruct (set_axis_checked 2 "z" "You want to set z-axis out of scan-config range."
              z d1 s1 Hp1 Hr1 ltac:(lia))
    as ([c|d2] & s2 & E2 & Hp2 & Hr2 & Q2 & Hc2 & Ho2);
    rewrite (run_bind_ret _ _ _ _ _ E2);
    pose proof (quiet_trans _ _ _ Q01 Q2) as Q02;
    [rewrite (Hc2 c eq_refl); exists s2; repeat split; apply Q02|].
  destruct (set_axis_checked 3 "a" "You want to set a-axis out of scan-config range."
              a d2 s2 Hp2 Hr2 ltac:(lia))
    as ([c|d3] & s3 & E3 & Hp3 & Hr3 & Q3 & Hc3 & Ho3);
    rewrite (run_bind_ret _ _ _ _ _ E3);
    pose proof (quiet_trans _ _ _ Q02 Q3) as Q03;
    [rewrite (Hc3 c eq_refl); exists s3; repeat split; apply Q03|].
  exfalso.
  rewrite (quiet_ranges _ _ Q0) in Ho1.
  rewrite (quiet_ranges _ _ Q01) in Ho2.
  rewrite (quiet_ranges _ _ Q02) in Ho3.
  destruct i as [|[|[|[|]]]]; simpl in Hi; simplify_eq.
  - by specialize (Ho0 v eq_refl Hout).
  - by specialize (Ho1 v eq_refl Hout).
  - by specialize (Ho2 v eq_refl Hout).
  - by specialize (Ho3 v eq_refl Hout).
Qed.

(** X3. A NaN coordinate is never accepted: on an adapter that holds a
    position array of four entries (a [float64] array, or an [int64] array
    to which every coordinate within the ranges can be written) and a full
    range table, a call in which some provided coordinate is NaN returns
    the error code and calls no device, whatever the bounds and the other
    coordinates. *)
Theorem scanner_set_position_rejects_nan x y z a s i :
  position_ok s → ranges_ok s →
  [x; y; z; a] !! i = Some (Some nan) →
  ∃ s', scanner_set_position env x y z a s = (Ret (-1)%Z, s') ∧
        trace s' = trace s ∧ world s' = world s.
Proof.
  intros Hp Hr Hi. apply scanner_set_position_refuses; [done..|].
  exists i, nan. split; [done|].
  assert (i < 4) as Hlt.
  { apply lookup_lt_Some in Hi. simpl in Hi. lia. }
  destruct (Hr i Hlt) as (lo & hi & Hb).
  exists lo, hi. split; [done|]. left. apply leb_nan_r.
Qed.

(** X4. On an adapter that holds a position array of four entries (a
    [float64] array, or an [int64] array to which every coordinate within
    the ranges can be written) and a full range table,
    [scanner_set_position] never raises, whatever the coordinates and
    whatever the stage does: it returns 0 or the error code -1 (an
    exception of [move_abs] is caught), and the adapter still holds such a
    position array and the same range table. *)
Theorem scanner_set_position_returns_code x y z a s :
  position_ok s → ranges_ok s →
  ∃ c s', scanner_set_position env x y z a s = (Ret c, s') ∧
          (c = 0%Z ∨ c = (-1)%Z) ∧ position_ok s' ∧
          _scanner_position_ranges (self s') =
            _scanner_position_ranges (self s).
Proof.
  intros Hp Hr. rewrite scanner_set_position_blocks.
  destruct (set_axis_checked 0 "x" "You want to set x-axis out of scan-config range."
              x ∅ s Hp Hr ltac:(lia))
    as ([c|d0] & s0 & E0 & Hp0 & Hr0 & Q0 & Hc0 & _);
    rewrite (run_bind_ret _ _ _ _ _ E0);
    [exists c, s0; rewrite (Hc0 c eq_refl);
     repeat split; [by right|done|apply Q0]|].
  destruct (set_axis_checked 1 "y" "You want to set y-axis out of scan-config range."
              y d0 s0 Hp0 Hr0 ltac:(lia))
    as ([c|d1] & s1 & E1 & Hp1 & Hr1 & Q1 & Hc1 & _);
    rewrite (run_bind_ret _ _ _ _ _ E1);
    pose proof (quiet_trans _ _ _ Q0 Q1) as Q01;
    [exists c, s1; rewrite (Hc1 c eq_refl);
     repeat split; [by right|done|apply Q01]|].
  destruct (set_axis_checked 2 "z" "You want to set z-axis out of scan-config range."
              z d1 s1 Hp1 Hr1 ltac:(lia))
    as ([c|d2] & s2 & E2 & Hp2 & Hr2 & Q2 & Hc2 & _);
    rewrite (run_bind_ret _ _ _ _ _ E2);
    pose proof (quiet_trans _ _ _ Q01 Q2) as Q02;
    [exists c, s2; rewrite (Hc2 c eq_refl);
     repeat split; [by right|done|apply Q02]|].
  destruct (set_axis_checked 3 "a" "You want to set a-axis out of scan-config range."
              a d2 s2 Hp2 Hr2 ltac:(lia))
    as ([c|d3] & s3 & E3 & Hp3 & Hr3 & Q3 & Hc3 & _);
    rewrite (run_bind_ret _ _ _ _ _ E3);
    pose proof (quiet_trans _ _ _ Q02 Q3) as Q03;
    [exists c, s3; rewrite (Hc3 c eq_refl);
     repeat split; [by right|done|apply Q03]|].
  rewrite run_send. eexists _, _. split; [reflexivity|].
  split; [by destruct (is_ret _); [left|right]|].
  split; [by apply position_ok_sent|]. cbn [self sent]. apply Q03.
Qed.

(** X5. Whatever the state, the coordinates and the outcome (also when
    the call raises), one call to [scanner_set_position] calls the stage at
    most once, by [move_abs], and changes neither the range table nor the
    dwell settings. *)
Theorem scanner_set_position_one_move_at_most x y z a s :
  at_most_one_move s (scanner_set_position env x y z a s).2 ∧
  settings_kept s (scanner_set_position env x y z a s).2.
Proof.
  destruct (scanner_set_position env x y z a s) as [r s'] eqn:H.
  by eapply scanner_set_position_effect.
Qed.

End PositionRefusals.

(** * Further properties of the line scan *)

Section ScanShapes.

Context {env : environment}.
Implicit Types s : machine env.

(** X6. The window of counts that a pixel averages, for a counter with a
    channel 0 holding [channel]: with [bins > 0] it is the [bins] most
    recent entries (the whole channel when it holds fewer); with
    [bins = 0] it is the whole channel, not an empty window, because the
    slice [-0:] starts at the first entry; with [bins < 0] it is the
    channel without its [-bins] oldest entries.  Reading the counts changes
    nothing but the record of calls. *)
Theorem read_counts_window bins channel s :
  _dwell_cnt_bins (self s) = Some bins →
  counter_countdata env (world s) !! 0 = Some channel →
  ∃ window,
    read_counts env s =
      (Ret window,
       Build_machine env (self s) (world s) (trace s ++ [EvCountdata])
         (logged s)) ∧
    ((0 < bins)%Z → window = most_recent (Z.to_nat bins) channel) ∧
    (bins = 0%Z → window = channel) ∧
    ((bins < 0)%Z → window = drop (Z.to_nat (- bins)) channel).
Proof.
  intros Hbins Hchannel. exists (py_slice_from (- bins) channel). split.
  - unfold read_counts. rewrite run_bind, run_device_call. cbn [fst snd].
    set (s1 := Build_machine env (self s) (world s)
                 (trace s ++ [EvCountdata]) (logged s)).
    rewrite (run_bind_ret _ _ s1 bins s1 (run_read_attr _ _ s1 Hbins)).
    by rewrite (run_bind_ret _ _ _ _ _ (run_py_index _ _ _ s1 Hchannel)).
  - split; [|split].
    + intros Hpos. apply py_slice_from_neg. lia.
    + intros ->. unfold py_slice_from. cbn [Z.opp Z.ltb Z.compare].
      by rewrite Z.min_l by lia.
    + intros Hneg. unfold py_slice_from.
      destruct (Z.ltb_spec (- bins) 0) as [|_]; [lia|].
      destruct (decide (- bins ≤ Z.of_nat (length channel))%Z) as [Hle|Hgt].
      * by rewrite Z.min_l.
      * rewrite Z.min_r by lia. rewrite Nat2Z.id.
        rewrite !drop_ge; [done| |done]. lia.
Qed.

Lemma scan_pixel_more_rows nrows N cell i count_data s :
  4 ≤ nrows →
  scan_pixel env (LineNdarray2 nrows N cell) i count_data s =
  scan_pixel env (LineNdarray2 4 N cell) i count_data s.
Proof.
  intros Hrows.
  destruct nrows as [|[|[|[|k]]]]; [lia..|].
  unfold scan_pixel, column. rewrite !run_bind.
  by destruct (i <? N)%nat.
Qed.

Lemma scan_pixels_more_rows nrows N cell indices count_data s :
  4 ≤ nrows →
  scan_pixels env (LineNdarray2 nrows N cell) indices count_data s =
  scan_pixels env (LineNdarray2 4 N cell) indices count_data s.
Proof.
  intros Hrows. revert count_data s.
  induction indices as [|i indices IH]; intros count_data s; [done|].
  cbn [scan_pixels]. rewrite !run_bind, (scan_pixel_more_rows _ _ _ _ _ _ Hrows).
  destruct (scan_pixel env (LineNdarray2 4 N cell) i count_data s)
    as [[cd|e] s1]; [apply IH|done].
Qed.

(** X7. Rows after the fourth are ignored: a scan over an array of
    [nrows >= 4] rows does exactly what the scan over its first four rows
    does (same result, same device calls, same final state). *)
Theorem scan_line_ignores_rows_after_fourth nrows N cell s :
  4 ≤ nrows →
  scan_line env (LineNdarray2 nrows N cell) s =
  scan_line env (LineNdarray2 4 N cell) s.
Proof.
  intros Hrows. rewrite !scan_line_ndarray2, !run_bind.
  by rewrite (scan_pixels_more_rows _ _ _ _ _ _ Hrows).
Qed.

(** X8. An array of fewer than four rows and at least one column makes
    the scan raise [IndexError] at pixel 0, where the missing coordinate is
    read: no device is called, no sample is taken; only the line length
    has been recorded. *)
Theorem scan_line_too_few_rows nrows N cell s :
  nrows < 4 → 1 ≤ N →
  scan_line env (LineNdarray2 nrows N cell) s = (Raise IndexError, lined_up N s).
Proof.
  intros Hrows HN. destruct N as [|n]; [lia|].
  by destruct nrows as [|[|[|[|k]]]]; [..|lia].
Qed.

(** X9. A list of rows passes the type test of [scan_line] but is never
    scanned: no device is called, and the call raises [IndexError] (empty
    list, rows of different lengths) or [TypeError] (rows of one length,
    non-empty: a list cannot be indexed by [[:, i]]), or returns an empty
    column when the rows are empty.  A 1-d array raises [IndexError]. *)
Theorem scan_line_list_never_scanned rows v s :
  let run := scan_line env (LineList rows) s in
  trace run.2 = trace s ∧ world run.2 = world s ∧
  (run.1 = Raise IndexError ∨ run.1 = Raise TypeError ∨
   (run.1 = Ret (Array2 []) ∧ ∃ r0 rest, rows = r0 :: rest ∧ r0 = [])) ∧
  scan_line env (LineNdarray1 v) s = (Raise IndexError, s).
Proof.
  split; [|split; [|split]]; try reflexivity.
  - destruct rows as [|r0 rest]; [done|]. unfold scan_line, shape_1.
    rewrite run_bind.
    destruct (forallb _ rest); [|done].
    by destruct r0.
  - destruct rows as [|r0 rest]; [done|]. unfold scan_line, shape_1.
    rewrite run_bind.
    destruct (forallb _ rest); [|done].
    by destruct r0.
  - destruct rows as [|r0 rest]; [by left|]. unfold scan_line, shape_1.
    rewrite run_bind.
    destruct (forallb _ rest); [|by left].
    destruct r0; [|by right; left].
    right; right. split; [done|]. by eexists _, _.
Qed.

End ScanShapes.

(** * Further properties of activation *)

Section ActivationEdges.

Context {env : environment}.
Implicit Types s : machine env.

Lemma run_dict_get_missing {V} (d : gmap string V) key s :
  d !! key = None → dict_get env d key s = (Raise KeyError, s).
Proof. unfold dict_get. by intros ->. Qed.

(** One query of the stage position calls [get_pos] once and touches
    nothing else. *)
Lemma read_stage_position_shape s :
  ∃ r, read_stage_position env s =
       (r, polled (stage_get_pos env (world s)).2 [EvGetPos] s).
Proof.
  unfold read_stage_position. rewrite run_bind, run_device_call.
  destruct (stage_get_pos env (world s)) as [[d|e] w]; cbn [fst snd];
    [|by eexists].
  fold (polled w [EvGetPos] s).
  destruct (d !! "x") as [x|] eqn:Hx;
    [rewrite (run_bind_ret _ _ _ _ _ (run_dict_get _ _ _ _ Hx))
    |rewrite (run_bind_raise _ _ _ _ _ (run_dict_get_missing _ _ _ Hx));
     by eexists].
  destruct (d !! "y") as [y|] eqn:Hy;
    [rewrite (run_bind_ret _ _ _ _ _ (run_dict_get _ _ _ _ Hy))
    |rewrite (run_bind_raise _ _ _ _ _ (run_dict_get_missing _ _ _ Hy));
     by eexists].
  destruct (d !! "z") as [z|] eqn:Hz;
    [rewrite (run_bind_ret _ _ _ _ _ (run_dict_get _ _ _ _ Hz))
    |rewrite (run_bind_raise _ _ _ _ _ (run_dict_get_missing _ _ _ Hz))];
    by eexists.
Qed.

Lemma position_query_calls s r s' :
  _get_scanner_position_init env s = (r, s') →
  self s' = self s ∧
  ∃ calls,
    trace s' = trace s ++ calls ∧
    (calls = [EvGetPos] ∨
     calls = [EvGetPos; EvSleep 0.1%float] ∨
     calls = [EvGetPos; EvSleep 0.1%float; EvGetPos]).
Proof.
  unfold _get_scanner_position_init. unfold try_except at 1.
  destruct (read_stage_position_shape s) as (r1 & ->).
  assert (∀ s1, self s1 = self s → trace s1 = trace s ++ [EvGetPos] →
                self s1 = self s ∧
                ∃ calls, trace s1 = trace s ++ calls ∧
                  (calls = [EvGetPos] ∨ calls = [EvGetPos; EvSleep 0.1%float] ∨
                   calls = [EvGetPos; EvSleep 0.1%float; EvGetPos])) as Hone.
  { intros s1 Hs Ht. split; [done|]. exists [EvGetPos]. split; [done|by left]. }
  destruct r1 as [p|e]; [intros [= <- <-]; by apply Hone|].
  destruct (is_KeyError e); [intros [= <- <-]; by apply Hone|].
  rewrite run_bind, run_device_call.
  destruct (time_sleep env 0.1%float _) as [[[]|e'] w2]; cbn [fst snd].
  - unfold try_except.
    match goal with
    | |- context [read_stage_position env ?s1] =>
        destruct (read_stage_position_shape s1) as (r2 & ->)
    end.
    assert (∀ s1, self s1 = self s →
                  trace s1 = ((trace s ++ [EvGetPos]) ++ [EvSleep 0.1%float])
                             ++ [EvGetPos] →
                  self s1 = self s ∧
                  ∃ calls, trace s1 = trace s ++ calls ∧
                    (calls = [EvGetPos] ∨
                     calls = [EvGetPos; EvSleep 0.1%float] ∨
                     calls = [EvGetPos; EvSleep 0.1%float; EvGetPos])) as Htwo.
    { intros s1 Hs Ht. split; [done|].
      exists [EvGetPos; EvSleep 0.1%float; EvGetPos].
      split; [|by right; right]. by rewrite Ht, <- !app_assoc. }
    destruct r2 as [p|e2]; [intros [= <- <-]; by apply Htwo|].
    destruct (is_KeyError e2); intros [= <- <-]; by apply Htwo.
  - intros [= <- <-]. split; [done|]. exists [EvGetPos; EvSleep 0.1%float].
    split; [|by right; left]. cbn [trace polled]. by rewrite <- !app_assoc.
Qed.

(** X10. Whatever the stage does, [_get_scanner_position_init] queries
    the position at most twice and sleeps at most once, for 0.1 s, between
    the two queries; it changes no attribute of the adapter. *)
Theorem position_query_at_most_twice s :
  self (_get_scanner_position_init env s).2 = self s ∧
  ∃ calls,
    trace (_get_scanner_position_init env s).2 = trace s ++ calls ∧
    (calls = [EvGetPos] ∨
     calls = [EvGetPos; EvSleep 0.1%float] ∨
     calls = [EvGetPos; EvSleep 0.1%float; EvGetPos]).
Proof.
  destruct (_get_scanner_position_init env s) as [r s'] eqn:H.
  by apply (position_query_calls s r s').
Qed.

(** The first query fails with a [KeyError]: raised by the stage, or
    because the answer lacks the entry x, y or z. *)
Definition key_error_on_read (w w' : World env) : Prop :=
  stage_get_pos env w = (Raise KeyError, w') ∨
  ∃ d, stage_get_pos env w = (Ret d, w') ∧
       (d !! "x" = None ∨ d !! "y" = None ∨ d !! "z" = None).

Lemma run_read_stage_position_key_error w' s :
  key_error_on_read (world s) w' →
  read_stage_position env s = (Raise KeyError, polled w' [EvGetPos] s).
Proof.
  intros [Hraise|(d & Hret & Hmiss)].
  - by apply run_read_stage_position_raise.
  - unfold read_stage_position. rewrite run_bind, run_device_call, Hret.
    cbn [fst snd]. fold (polled w' [EvGetPos] s).
    destruct (d !! "x") as [x|] eqn:Hx;
      [rewrite (run_bind_ret _ _ _ _ _ (run_dict_get _ _ _ _ Hx))
      |by rewrite (run_bind_raise _ _ _ _ _ (run_dict_get_missing _ _ _ Hx))].
    destruct (d !! "y") as [y|] eqn:Hy;
      [rewrite (run_bind_ret _ _ _ _ _ (run_dict_get _ _ _ _ Hy))
      |by rewrite (run_bind_raise _ _ _ _ _ (run_dict_get_missing _ _ _ Hy))].
    destruct (d !! "z") as [z|] eqn:Hz;
      [|by rewrite (run_bind_raise _ _ _ _ _ (run_dict_get_missing _ _ _ Hz))].
    by destruct Hmiss as [|[|]].
Qed.

(** With the 0-d array of [None] for position, a coordinate that passes
    its check cannot be stored: the index assignment raises. *)
Lemma scanner_set_position_on_0d v l0 h0 others s :
  _scanner_position_ranges (self s) = [l0; h0] :: others →
  _current_position (self s) = Some PosNone0d →
  PrimFloat.leb l0 v = true → PrimFloat.leb v h0 = true →
  scanner_set_position env (Some v) None None None s = (Raise IndexError, s).
Proof.
  intros Hranges Hcur Hlo Hhi. rewrite scanner_set_position_blocks.
  rewrite run_bind. unfold set_axis.
  rewrite (run_bind_ret _ _ _ _ _
             (run_range_bound _ 0 0 [l0; h0] l0 s Hranges eq_refl eq_refl)).
  rewrite Hlo, run_bind.
  rewrite (run_bind_ret _ _ _ _ _
             (run_range_bound _ 0 1 [l0; h0] h0 s Hranges eq_refl eq_refl)).
  cbn [mret M_ret]. rewrite Hhi. cbn [negb].
  rewrite run_bind. unfold store_position.
  by rewrite (run_bind_ret _ _ _ _ _ (run_read_attr _ _ _ Hcur)).
Qed.

(** X11. With a 4 x 2 range table and a stage that answers
    [get_constraints]: when the first position query fails with a
    [KeyError] (raised by the stage, or an answer without the entry x, y
    or z), activation makes no second query and returns 0 although no
    position is known: [get_scanner_position] then returns [None], and a
    [scanner_set_position] whose x passes the range check raises
    [IndexError] without calling the stage. *)
Theorem activation_after_key_error hw w1 w2 l0 h0 l1 h1 l2 h2 l3 h3 v s :
  _scanner_position_ranges (self s) = [[l0; h0]; [l1; h1]; [l2; h2]; [l3; h3]] →
  stage_get_constraints env (world s) = (Ret hw, w1) →
  key_error_on_read w1 w2 →
  PrimFloat.leb l0 v = true → PrimFloat.leb v h0 = true →
  ∃ s',
    on_activate env s = (Ret 0%Z, s') ∧
    trace s' = trace s ++ [EvGetConstraints; EvGetPos] ∧
    get_scanner_position env s' = (Ret None, s') ∧
    scanner_set_position env (Some v) None None None s' =
      (Raise IndexError, s').
Proof.
  intros Hranges Hhw Hkey Hlo Hhi. unfold on_activate.
  lazymatch goal with
  | |- context [mbind (λ _, ?rest) (fill_middle env (seq 0 4))] =>
      destruct (run_activation_prologue hw w1 l0 h0 l1 h1 l2 h2 l3 h3 rest s
                  Hhw Hranges) as (line & Hpro)
  end.
  rewrite Hpro. clear Hpro. rewrite run_bind. unfold try_except at 1.
  rewrite run_bind. unfold _get_scanner_position_init, try_except.
  erewrite (run_read_stage_position_key_error w2); [|done].
  cbn beta iota. eexists. split; [reflexivity|].
  split; [cbn [trace polled]; by rewrite <- app_assoc|].
  split; [reflexivity|].
  by eapply (scanner_set_position_on_0d v l0 h0).
Qed.

(** X12. The comparison with the limits of the stage is outside the
    [try] of [on_activate]: when [get_constraints] raises, activation
    raises the same exception; no attribute has been bound, nothing has
    been logged, and the position has not been queried. *)
Theorem activation_raises_with_get_constraints e w1 s :
  stage_get_constraints env (world s) = (Raise e, w1) →
  on_activate env s =
  (Raise e,
   Build_machine env (self s) w1 (trace s ++ [EvGetConstraints]) (logged s)).
Proof.
  intros Hhw. unfold on_activate, _get_position_range_init.
  by rewrite !run_bind, run_device_call, Hhw.
Qed.

(** X13. With a 4 x 2 range table and a stage that answers
    [get_constraints]: after an activation in which both position queries
    raise an exception other than [KeyError], the position is bound to a
    list, and [get_scanner_position] raises [AttributeError] (a list has no
    [tolist]); the dwell settings are as they were before the activation,
    unbound on a new adapter. *)
Theorem position_unreadable_after_fallback hw w1 e1 w2 w3 e2 w4
    l0 h0 l1 h1 l2 h2 l3 h3 s :
  _scanner_position_ranges (self s) = [[l0; h0]; [l1; h1]; [l2; h2]; [l3; h3]] →
  stage_get_constraints env (world s) = (Ret hw, w1) →
  stage_get_pos env w1 = (Raise e1, w2) → is_KeyError e1 = false →
  time_sleep env 0.1%float w2 = (Ret (), w3) →
  stage_get_pos env w3 = (Raise e2, w4) → is_KeyError e2 = false →
  ∃ s',
    on_activate env s = (Ret (-1)%Z, s') ∧
    get_scanner_position env s' = (Raise AttributeError, s') ∧
    _dwell_cnt_bins (self s') = _dwell_cnt_bins (self s) ∧
    _dwell_delay (self s') = _dwell_delay (self s).
Proof.
  intros Hranges Hhw Hpos1 He1 Hsleep Hpos2 He2. unfold on_activate.
  lazymatch goal with
  | |- context [mbind (λ _, ?rest) (fill_middle env (seq 0 4))] =>
      destruct (run_activation_prologue hw w1 l0 h0 l1 h1 l2 h2 l3 h3 rest s
                  Hhw Hranges) as (line & Hpro)
  end.
  rewrite Hpro. clear Hpro. rewrite run_bind. unfold try_except.
  rewrite run_bind.
  erewrite (init_position_fails_twice e1 w2 w3 e2 w4); [|done..].
  cbn beta iota. eexists. by repeat split.
Qed.

End ActivationEdges.

Section ActivationConfig.

Context {env : environment}.
Implicit Types s : machine env.

(** Row [i] of the table exists and has its two bounds. *)
Definition row_usable (table : list (list float)) (i : nat) : bool :=
  match table !! i with
  | Some (_ :: _ :: _) => true
  | _ => false
  end.

(** The four rows that activation reads are there. *)
Definition config_usable (table : list (list float)) : bool :=
  forallb (row_usable table) (seq 0 4).

Lemma run_py_index_none {A} (l : list A) i s :
  l !! i = None → py_index env l i s = (Raise IndexError, s).
Proof. unfold py_index. by intros ->. Qed.

Lemma fill_middle_unusable table indices middle s :
  _position_range (self s) = Some table →
  _middle_xyz_pos (self s) = Some middle →
  Forall (λ i, i < length middle) indices →
  forallb (row_usable table) indices = false →
  ∃ s', fill_middle env indices s = (Raise IndexError, s') ∧
        trace s' = trace s ∧ world s' = world s ∧ logged s' = logged s ∧
        _current_position (self s') = _current_position (self s).
Proof.
  revert middle s.
  induction indices as [|i indices IH]; intros middle s Ht Hm Hall Hbad;
    [discriminate|].
  inversion Hall as [|? ? Hi Hrest]; subst.
  cbn [fill_middle forallb] in *.
  rewrite (run_bind_ret _ _ _ _ _ (run_read_attr _ _ _ Ht)).
  unfold row_usable in Hbad at 1.
  destruct (table !! i) as [row|] eqn:Hrow;
    [|rewrite (run_bind_raise _ _ _ _ _ (run_py_index_none _ _ s Hrow));
      by eexists].
  rewrite (run_bind_ret _ _ _ _ _ (run_py_index _ _ _ s Hrow)).
  destruct row as [|lo [|hi more]].
  - rewrite (run_bind_raise _ _ s IndexError s) by reflexivity. by eexists.
  - rewrite (run_bind_ret _ _ s lo s) by reflexivity.
    rewrite (run_bind_ret _ _ _ _ _ (run_py_index _ _ _ s Hrow)).
    rewrite (run_bind_raise _ _ s IndexError s) by reflexivity. by eexists.
  - rewrite (run_bind_ret _ _ s lo s) by reflexivity.
    rewrite (run_bind_ret _ _ _ _ _ (run_py_index _ _ _ s Hrow)).
    rewrite (run_bind_ret _ _ s hi s) by reflexivity.
    rewrite (run_bind_ret _ _ _ _ _ (run_read_attr _ _ _ Hm)).
    destruct (Nat.ltb_spec i (length middle)) as [_|]; [|lia].
    rewrite run_bind. unfold update_self at 1.
    destruct (IH (<[i := (0.5 * (lo + hi))%float]> middle)
                (Build_machine env
                   (set_middle_xyz_pos (<[i := (0.5 * (lo + hi))%float]> middle)
                      (self s))
                   (world s) (trace s) (logged s)))
      as (s' & Hrun & Htrace & Hworld & Hlog & Hcur).
    + done.
    + done.
    + by rewrite length_insert.
    + done.
    + exists s'. by rewrite Hrun.
Qed.

(** X14. Activation does not check the configured range table: with a
    stage that answers [get_constraints], when one of the first four rows
    of the table is missing or has fewer than two entries, [on_activate]
    raises [IndexError] while it computes the midpoints; the position has
    not been queried and [_current_position] is as it was. *)
Theorem activation_raises_on_short_table hw w1 s :
  stage_get_constraints env (world s) = (Ret hw, w1) →
  config_usable (_scanner_position_ranges (self s)) = false →
  ∃ s', on_activate env s = (Raise IndexError, s') ∧
        trace s' = trace s ++ [EvGetConstraints] ∧
        _current_position (self s') = _current_position (self s).
Proof.
  intros Hhw Hbad. unfold on_activate.
  destruct (run_get_position_range_init hw w1 s Hhw) as (line & Hinit).
  rewrite (run_bind_ret _ _ _ _ _ Hinit).
  rewrite run_bind. unfold get_position_range, read_self at 1.
  rewrite run_bind. unfold update_self at 1.
  rewrite run_bind. unfold update_self at 1. cbn [self world trace logged].
  match goal with
  | |- context [(fill_middle env (seq 0 4) ≫= _) ?s0] =>
      destruct (fill_middle_unusable (_scanner_position_ranges (self s))
                  (seq 0 4) [0%float; 0%float; 0%float; 0%float] s0)
        as (s' & Hrun & Htrace & _ & _ & Hcur)
  end.
  - reflexivity.
  - reflexivity.
  - apply Forall_forall. intros i Hi%elem_of_seq. simpl. lia.
  - exact Hbad.
  - exists s'. rewrite (run_bind_raise _ _ _ _ _ Hrun). by repeat split.
Qed.

(** The limits that the comparison takes for an axis of the stage:
    [pos_min] and [pos_max] when the stage gives both, [0, 0] otherwise. *)
Definition stage_limits (hw_constraints : gmap string (gmap string float))
    (axis : string) : list float :=
  match hw_constraints !! axis with
  | Some c =>
      match c !! "pos_min", c !! "pos_max" with
      | Some pos_min, Some pos_max => [pos_min; pos_max]
      | _, _ => [0%float; 0%float]
      end
  | None => [0%float; 0%float]
  end.

Lemma run_constraints_to_range_limits hw axis s :
  axis ∈ ["x"; "y"; "z"] → is_Some (hw !! axis) →
  _constraints_to_range env hw axis s = (Ret (stage_limits hw axis), s).
Proof.
  intros Haxis [c Hc]. unfold _constraints_to_range, stage_limits.
  rewrite bool_decide_eq_true_2 by done. cbn [negb]. rewrite Hc.
  rewrite (run_bind_ret _ _ _ _ _ (run_dict_get _ _ _ s Hc)).
  destruct (c !! "pos_min"); [|done].
  rewrite (run_bind_ret _ _ _ _ _ (run_dict_get _ _ _ s Hc)).
  by destruct (c !! "pos_max").
Qed.

Lemma run_fill_range_limits hw i axis pos_range s :
  axis ∈ ["x"; "y"; "z"] → pos_range !! i = Some [0%float; 0%float] →
  fill_range env hw i axis pos_range s =
  (Ret (<[i := stage_limits hw axis]> pos_range), s).
Proof.
  intros Haxis Hrow. unfold fill_range.
  destruct (hw !! axis) as [c|] eqn:Hc.
  - rewrite (run_bind_ret _ _ _ _ _
               (run_constraints_to_range_limits hw axis s Haxis
                  (mk_is_Some _ _ Hc))).
    reflexivity.
  - unfold stage_limits. rewrite Hc. by rewrite list_insert_id.
Qed.

(** X15. [_get_position_range_init] on a stage that answers
    [get_constraints]: it calls the stage once, changes no attribute and
    logs one line.  The line is the debug line when the first three rows of
    the configured table equal the limits of the stage for x, y and z
    (an axis or a limit that the stage does not give counts as [0, 0]), and
    the warning otherwise; the fourth row and the limits of axis a take no
    part. *)
Theorem position_range_init_compares_xyz hw w1 s :
  stage_get_constraints env (world s) = (Ret hw, w1) →
  _get_position_range_init env s =
  (Ret (),
   Build_machine env (self s) w1 (trace s ++ [EvGetConstraints])
     (logged s ++
      [if table_eqb (take 3 (_scanner_position_ranges (self s)))
            [stage_limits hw "x"; stage_limits hw "y"; stage_limits hw "z"]
       then (LogDebug,
             "Config interfuse range xyz: hardware stage constraints == logic scan range.")
       else (LogWarning,
             "Config interfuse warning: hardware stage constraints range NOT equal to logic scan range.")])).
Proof.
  intros Hhw. unfold _get_position_range_init.
  rewrite run_bind, run_device_call, Hhw. cbn [fst snd].
  set (s1 := Build_machine env (self s) w1 (trace s ++ [EvGetConstraints])
               (logged s)).
  set (p0 := replicate 4 [0%float; 0%float]).
  rewrite (run_bind_ret _ _ _ _ _
             (run_fill_range_limits hw 0 "x" p0 s1 ltac:(set_solver) eq_refl)).
  set (p1 := <[0:=stage_limits hw "x"]> p0).
  rewrite (run_bind_ret _ _ _ _ _
             (run_fill_range_limits hw 1 "y" p1 s1 ltac:(set_solver) eq_refl)).
  set (p2 := <[1:=stage_limits hw "y"]> p1).
  rewrite (run_bind_ret _ _ _ _ _
             (run_fill_range_limits hw 2 "z" p2 s1 ltac:(set_solver) eq_refl)).
  subst p0 p1 p2.
  destruct (run_fill_range hw 3 "a"
              (<[2:=stage_limits hw "z"]>
                 (<[1:=stage_limits hw "y"]>
                    (<[0:=stage_limits hw "x"]>
                       (replicate 4 [0%float; 0%float])))) s1)
    as (filled & Hfill).
  assert (take 3 filled =
          [stage_limits hw "x"; stage_limits hw "y"; stage_limits hw "z"])
    as Htake.
  { assert ("a" ∉ ["x"; "y"; "z"]) as Hna.
    { rewrite !not_elem_of_cons.
      repeat split; [discriminate..|apply not_elem_of_nil]. }
    unfold fill_range in Hfill. destruct (hw !! "a") as [c|].
    - unfold _constraints_to_range in Hfill.
      rewrite (bool_decide_eq_false_2 _ Hna) in Hfill.
      by inversion Hfill.
    - by inversion Hfill. }
  rewrite (run_bind_ret _ _ _ _ _ Hfill).
  rewrite (run_bind_ret _ _ s1 (_scanner_position_ranges (self s1)) s1)
    by reflexivity.
  rewrite Htake. cbn [self s1].
  by destruct (table_eqb _ _).
Qed.

End ActivationConfig.

Section ActivationOutcomes.

Context {env : environment}.
Implicit Types s : machine env.

(** The attributes that the prologue of [on_activate] does not write. *)
Definition core (a : adapter) :=
  (_scanner_position_ranges a, _current_position a, _dwell_cnt_bins a,
   _dwell_delay a).

Definition Keeps {A} (m : M env A) : Prop :=
  ∀ s r s', m s = (r, s') → core (self s') = core (self s).

Lemma Keeps_bind {A B} (m : M env A) (f : A → M env B) :
  Keeps m → (∀ a, Keeps (f a)) → Keeps (m ≫= f).
Proof.
  intros Hm Hf s r s'. rewrite run_bind.
  destruct (m s) as [[a|e] s1] eqn:E; intros H.
  - rewrite (Hf a _ _ _ H). by eapply Hm.
  - inversion H; subst. by eapply Hm.
Qed.

Lemma Keeps_quiet_state {A} (m : M env A) :
  (∀ s r s', m s = (r, s') → s' = s) → Keeps m.
Proof. intros H s r s' ->%H. done. Qed.

Lemma Keeps_read_attr {A} (f : adapter → option A) : Keeps (read_attr env f).
Proof.
  apply Keeps_quiet_state. intros s r s'. unfold read_attr, read_self.
  rewrite run_bind. by destruct (f (self s)); intros [= <- <-].
Qed.

Lemma Keeps_py_index {A} (l : list A) i : Keeps (py_index env l i).
Proof.
  apply Keeps_quiet_state. intros s r s'. unfold py_index.
  by destruct (l !! i); intros [= <- <-].
Qed.

Lemma Keeps_fill_middle indices : Keeps (fill_middle env indices).
Proof.
  induction indices as [|i indices IH]; [by intros s r s' [= <- <-]|].
  cbn [fill_middle].
  apply Keeps_bind; [apply Keeps_read_attr|]. intros table.
  apply Keeps_bind; [apply Keeps_py_index|]. intros row.
  apply Keeps_bind; [apply Keeps_py_index|]. intros lo.
  apply Keeps_bind; [apply Keeps_py_index|]. intros row'.
  apply Keeps_bind; [apply Keeps_py_index|]. intros hi.
  apply Keeps_bind; [apply Keeps_read_attr|]. intros middle.
  apply Keeps_bind; [|done].
  destruct (i <? length middle)%nat; by intros s r s' [= <- <-].
Qed.

Lemma position_range_init_keeps_self s r s' :
  _get_position_range_init env s = (r, s') → self s' = self s.
Proof.
  destruct (stage_get_constraints env (world s)) as [[hw|e] w1] eqn:Hhw.
  - destruct (run_get_position_range_init hw w1 s Hhw) as (line & ->).
    by intros [= <- <-].
  - unfold _get_position_range_init.
    rewrite run_bind, run_device_call, Hhw. by intros [= <- <-].
Qed.

Definition activation_result s (r : outcome Z) s' : Prop :=
  match r with
  | Ret c =>
      (c = 0%Z ∧
       (∃ position, _current_position (self s') = Some (np_array position)) ∧
       _dwell_cnt_bins (self s') = Some 1%Z ∧
       _dwell_delay (self s') = Some 0.02%float) ∨
      (c = (-1)%Z ∧
       _current_position (self s') = Some PosMiddleList ∧
       _dwell_cnt_bins (self s') = _dwell_cnt_bins (self s) ∧
       _dwell_delay (self s') = _dwell_delay (self s))
  | Raise e =>
      _current_position (self s') = _current_position (self s) ∧
      _dwell_cnt_bins (self s') = _dwell_cnt_bins (self s) ∧
      _dwell_delay (self s') = _dwell_delay (self s)
  end.

Lemma activation_result_of_run s r s' :
  on_activate env s = (r, s') →
  activation_result s r s' ∧
  _scanner_position_ranges (self s') = _scanner_position_ranges (self s).
Proof.
  unfold on_activate. rewrite run_bind.
  destruct (_get_position_range_init env s) as [[[]|e] s1] eqn:E1;
    pose proof (position_range_init_keeps_self _ _ _ E1) as K1;
    [|intros [= <- <-]; cbn [activation_result]; rewrite K1;
      by repeat split].
  rewrite run_bind. unfold get_position_range, read_self at 1.
  rewrite run_bind. unfold update_self at 1.
  rewrite run_bind. unfold update_self at 1. rewrite run_bind.
  cbn [self world trace logged].
  match goal with
  | |- context [fill_middle env (seq 0 4) ?s0] =>
      destruct (fill_middle env (seq 0 4) s0) as [[[]|e] s3] eqn:E2;
      apply Keeps_fill_middle in E2; cbn [self core] in E2;
      inversion E2 as [[K2r K2c K2b K2d]]
  end;
    [|intros [= <- <-]; cbn [activation_result];
      rewrite K2r, K2c, K2b, K2d, K1; by repeat split].
  rewrite run_bind. unfold try_except. rewrite run_bind.
  destruct (_get_scanner_position_init env s3) as [[p|e] s4] eqn:E3;
    apply position_query_calls in E3 as [K3 _]; cbn beta iota;
    intros [= <- <-]; cbn [self activation_result].
  - split; [left|].
    + split; [done|]. split; [by exists p|]. by split.
    + cbn. rewrite K3. congruence.
  - split; [right|].
    + split; [done|]. split; [done|]. cbn. rewrite K3. split; congruence.
    + cbn. rewrite K3. congruence.
Qed.

(** X16. Whatever the state and whatever the stage does, [on_activate]
    ends in one of three ways.  It returns 0 with a position array bound
    and the dwell settings set to 1 bin and 0.02 s (earlier settings are
    overwritten); or it returns -1 with the position bound to the list of
    midpoints and the dwell settings as they were; or it raises (from the
    steps before the position query) with position and dwell settings as
    they were.  In every case the configured range table is unchanged. *)
Theorem activation_outcomes s :
  activation_result s (on_activate env s).1 (on_activate env s).2 ∧
  _scanner_position_ranges (self (on_activate env s).2) =
    _scanner_position_ranges (self s).
Proof.
  destruct (on_activate env s) as [r s'] eqn:H.
  by apply activation_result_of_run.
Qed.

End ActivationOutcomes.

(** * Shutdown: [close_scanner], [reset_hardware], [on_deactivate]

    The three methods use the stage only: they read and write no attribute
    of the adapter.  They run over the state of the outside world, the
    list of the calls they make and the log. *)

(** The two methods of the stage that shutdown calls. *)
Record stage_shutdown (env : environment) := {
  stage_abort : World env → outcome () * World env;
  stage_on_deactivate : World env → outcome () * World env;
}.
Arguments stage_abort {env} _ _.
Arguments stage_on_deactivate {env} _ _.

Inductive shutdown_call :=
  | CallAbort
  | CallSleep (seconds : float)
  | CallDeactivate.

Section Shutdown.

Context {env : environment} (stage : stage_shutdown env).

Record closing := {
  closing_world : World env;
  closing_calls : list shutdown_call;
  closing_logged : list (log_level * string);
}.

Definition C (A : Type) : Type := closing → outcome A * closing.

#[local] Instance C_ret : MRet C := λ A a st, (Ret a, st).

#[local] Instance C_bind : MBind C := λ A B f m st,
  match m st with
  | (Ret a, st') => f a st'
  | (Raise e, st') => (Raise e, st')
  end.

(** [try: body / except: handler] with a bare [except]. *)
Definition closing_try {A} (body : C A) (handler : C A) : C A := λ st,
  match body st with
  | (Ret a, st') => (Ret a, st')
  | (Raise _, st') => handler st'
  end.

Definition closing_call (call : shutdown_call)
    (f : World env → outcome () * World env) : C () := λ st,
  let '(r, w) := f (closing_world st) in
  (r, {| closing_world := w;
         closing_calls := closing_calls st ++ [call];
         closing_logged := closing_logged st |}).

Definition closing_log (lvl : log_level) (msg : string) : C () := λ st,
  (Ret (), {| closing_world := closing_world st;
              closing_calls := closing_calls st;
              closing_logged := closing_logged st ++ [(lvl, msg)] |}).

Definition reset_hardware : C Z :=
  returned ← closing_try
    (closing_call CallAbort (stage_abort stage);;
     closing_call (CallSleep 0.1%float) (time_sleep env 0.1%float);;
     closing_call CallDeactivate (stage_on_deactivate stage);;
     closing_log LogDebug
       "Loagic Scan interfuse has aborted stage hardware, and deactivated it.";;
     mret None)
    (closing_log LogError
       "Logic interfuse can't reset_hardware(abort stage, and deactivate it).";;
     mret (Some (-1)%Z));
  match returned with
  | Some c => mret c
  | None => mret 0%Z
  end.

(** The result of [reset_hardware] is dropped. *)
Definition on_deactivate : C () :=
  reset_hardware;;
  mret ().

Definition close_scanner : C Z :=
  returned ← closing_try
    (closing_call CallAbort (stage_abort stage);;
     mret None)
    (closing_log LogError
       "Logic interfuse can't close scanner(abort stage). Check device connection!";;
     mret (Some (-1)%Z));
  match returned with
  | Some c => mret c
  | None => mret 0%Z
  end.

(** The calls of a reset that goes through, and the worlds between them. *)
Definition reset_completes (w : World env) : Prop :=
  is_ret (stage_abort stage w).1 = true ∧
  is_ret (time_sleep env 0.1%float (stage_abort stage w).2).1 = true ∧
  is_ret (stage_on_deactivate stage
            (time_sleep env 0.1%float (stage_abort stage w).2).2).1 = true.

(** X17. [reset_hardware] never raises.  It returns 0 exactly when
    [abort], the pause of 0.1 s and the stage's [on_deactivate] all return;
    the calls are then these three, in this order, and one debug line is
    logged.  Otherwise it returns -1 and logs one error line, and the calls
    stop at the one that raised: when [abort] raises, the stage is not
    deactivated. *)
Theorem reset_hardware_outcome st :
  ∃ c st',
    reset_hardware st = (Ret c, st') ∧
    ((c = 0%Z ∧ reset_completes (closing_world st) ∧
      closing_calls st' =
        closing_calls st ++ [CallAbort; CallSleep 0.1%float; CallDeactivate] ∧
      ∃ line, closing_logged st' = closing_logged st ++ [(LogDebug, line)]) ∨
     (c = (-1)%Z ∧ ¬ reset_completes (closing_world st) ∧
      (∃ line, closing_logged st' = closing_logged st ++ [(LogError, line)]) ∧
      (is_ret (stage_abort stage (closing_world st)).1 = false →
       closing_calls st' = closing_calls st ++ [CallAbort]))).
Proof.
  unfold reset_hardware, reset_completes, closing_try, closing_call,
    closing_log, mbind, C_bind, mret, C_ret.
  destruct (stage_abort stage (closing_world st)) as [[[]|e1] w1];
    cbn [fst snd closing_world closing_calls closing_logged].
  - destruct (time_sleep env 0.1%float w1) as [[[]|e2] w2];
      cbn [fst snd closing_world closing_calls closing_logged].
    + destruct (stage_on_deactivate stage w2) as [[[]|e3] w3];
        cbn [fst snd closing_world closing_calls closing_logged].
      * eexists _, _. split; [reflexivity|]. left.
        split; [done|]. split; [done|].
        cbn [closing_calls closing_logged].
        split; [by rewrite <- !app_assoc|by eexists].
      * eexists _, _. split; [reflexivity|]. right.
        split; [done|]. split; [by intros (_ & _ & ?)|].
        split; [by eexists|done].
    + eexists _, _. split; [reflexivity|]. right.
      split; [done|]. split; [by intros (_ & ? & _)|].
      split; [by eexists|done].
  - eexists _, _. split; [reflexivity|]. right.
    split; [done|]. split; [by intros (? & _)|].
    split; [by eexists|done].
Qed.

(** X18. [close_scanner] never raises and calls the stage once, by
    [abort]: it returns 0 when [abort] returns, with nothing logged, and
    -1 with one error line when [abort] raises. *)
Theorem close_scanner_outcome st :
  let answer := stage_abort stage (closing_world st) in
  close_scanner st =
  (Ret (if is_ret answer.1 then 0%Z else (-1)%Z),
   {| closing_world := answer.2;
      closing_calls := closing_calls st ++ [CallAbort];
      closing_logged :=
        if is_ret answer.1 then closing_logged st
        else closing_logged st ++
             [(LogError,
               "Logic interfuse can't close scanner(abort stage). Check device connection!")] |}).
Proof.
  unfold close_scanner, closing_try, closing_call, closing_log, mbind, C_bind,
    mret, C_ret.
  by destruct (stage_abort stage (closing_world st)) as [[[]|e] w].
Qed.

Lemma reset_hardware_returns st :
  ∃ c st', reset_hardware st = (Ret c, st').
Proof.
  unfold reset_hardware, closing_try, closing_call, closing_log, mbind,
    C_bind, mret, C_ret.
  destruct (stage_abort stage (closing_world st)) as [[[]|e1] w1];
    cbn [closing_world]; [|by eexists _, _].
  destruct (time_sleep env 0.1%float w1) as [[[]|e2] w2];
    cbn [closing_world]; [|by eexists _, _].
  destruct (stage_on_deactivate stage w2) as [[[]|e3] w3]; by eexists _, _.
Qed.

(** X19. [on_deactivate] never raises, whatever the stage does: it
    returns nothing, also when the reset failed, and leaves the world, the
    calls and the log where [reset_hardware] leaves them. *)
Theorem on_deactivate_never_raises st :
  on_deactivate st = (Ret (), (reset_hardware st).2).
Proof.
  destruct (reset_hardware_returns st) as (c & st' & H).
  unfold on_deactivate. unfold mbind at 1, C_bind. by rewrite H.
Qed.

End Shutdown.

(** * Where a scan leaves the position *)

Section ScanPosition.

Context {env : environment}.
Implicit Types s : machine env.

(** The run of a call whose provided coordinates all pass, on a position
    array of four entries to which every coordinate within the ranges can
    be written. *)
Lemma run_scanner_set_position_passes x y z a p s :
  _current_position (self s) = Some p → array_length p = Some 4 →
  (∀ j w, in_range (_scanner_position_ranges (self s)) j w →
          storable (int_array (Some p)) w) →
  passes (_scanner_position_ranges (self s)) 0 x →
  passes (_scanner_position_ranges (self s)) 1 y →
  passes (_scanner_position_ranges (self s)) 2 z →
  passes (_scanner_position_ranges (self s)) 3 a →
  scanner_set_position env x y z a s =
  (Ret (if is_ret (stage_move_abs env (command_held (Some p) x y z a)
                     (world s)).1
        then 0%Z else (-1)%Z),
   sent (command_held (Some p) x y z a) (with_store (target_array x y z a p) s)).
Proof.
  intros Hpos Hlen Hfit Hx Hy Hz Ha. rewrite scanner_set_position_blocks.
  rewrite (run_bind_ret _ _ _ _ _
             (set_axis_passes_array 0 _ _ x ∅ p 4 s Hpos Hlen ltac:(lia)
                Hfit Hx)).
  set (p1 := put_array 0 x p).
  assert (∀ q, int_array (Some q) = int_array (Some p) →
            ∀ j w, in_range (_scanner_position_ranges (self s)) j w →
                   storable (int_array (Some q)) w) as Hfit'.
  { intros q -> j w. apply Hfit. }
  rewrite (run_bind_ret _ _ _ _ _
             (set_axis_passes_array 1 _ _ y _ p1 4 (with_store p1 s) eq_refl
                ltac:(subst p1; by rewrite array_length_put_array)
                ltac:(lia)
                (Hfit' p1 ltac:(subst p1; by rewrite int_array_put_array))
                Hy)).
  set (p2 := put_array 1 y p1).
  rewrite (run_bind_ret _ _ _ _ _
             (set_axis_passes_array 2 _ _ z _ p2 4
                (with_store p2 (with_store p1 s)) eq_refl
                ltac:(subst p1 p2; by rewrite !array_length_put_array)
                ltac:(lia)
                (Hfit' p2
                   ltac:(subst p1 p2; by rewrite !int_array_put_array))
                Hz)).
  set (p3 := put_array 2 z p2).
  rewrite (run_bind_ret _ _ _ _ _
             (set_axis_passes_array 3 _ _ a _ p3 4
                (with_store p3 (with_store p2 (with_store p1 s)))
                eq_refl
                ltac:(subst p1 p2 p3; by rewrite !array_length_put_array)
                ltac:(lia)
                (Hfit' p3
                   ltac:(subst p1 p2 p3; by rewrite !int_array_put_array))
                Ha)).
  rewrite run_send.
  rewrite (put_held_kind (Some p3) (Some p) "a")
    by (subst p1 p2 p3; by rewrite !int_array_put_array).
  rewrite (put_held_kind (Some p2) (Some p) "z")
    by (subst p1 p2; by rewrite !int_array_put_array).
  rewrite (put_held_kind (Some p1) (Some p) "y")
    by (subst p1; by rewrite !int_array_put_array).
  reflexivity.
Qed.

(** What the wait and the sampling of a pixel leave alone. *)
Lemma scan_pixel_after_position line_path i count_data s cd' s' :
  scan_pixel env line_path i count_data s = (Ret cd', s') →
  ∃ nrows ncols cell c s1,
    line_path = LineNdarray2 nrows ncols cell ∧
    ((λ j, cell j i) <$> seq 0 nrows) !! 0 = Some (cell 0 i) ∧
    ((λ j, cell j i) <$> seq 0 nrows) !! 3 = Some (cell 3 i) ∧
    scanner_set_position env (Some (cell 0 i)) (Some (cell 1 i))
      (Some (cell 2 i)) (Some (cell 3 i)) s = (Ret c, s1) ∧
    self s' = self s1.
Proof.
  unfold scan_pixel. intros H.
  apply bind_ret_inv in H
    as (coords & s0 & [-> (nrows & ncols & cell & -> & Hi & ->)]%column_inv & H).
  apply bind_ret_inv in H as (x & s0 & [Hx ->]%py_index_inv & H).
  apply bind_ret_inv in H as (y & s0 & [Hy ->]%py_index_inv & H).
  apply bind_ret_inv in H as (z & s0 & [Hz ->]%py_index_inv & H).
  apply bind_ret_inv in H as (a & s0 & [Ha ->]%py_index_inv & H).
  assert (4 ≤ nrows) as Hrows.
  { apply lookup_lt_Some in Ha. rewrite length_fmap, length_seq in Ha. lia. }
  destruct nrows as [|[|[|[|k]]]]; [lia..|].
  cbn in Hx, Hy, Hz, Ha. inversion Hx; inversion Hy; inversion Hz;
    inversion Ha; subst x y z a.
  apply bind_ret_inv in H as (c & s1 & Hset & H).
  apply bind_ret_inv in H as (u & s2 & Hwait & H).
  apply bind_ret_inv in H as (counts & s3 & Hread & H).
  apply mret_inv in H as [_ ->].
  exists (S (S (S (S k)))), ncols, cell, c, s1.
  split; [done|]. split; [done|]. split; [done|]. split; [done|].
  assert (self s2 = self s1) as K2.
  { destruct (i =? 0)%nat.
    - apply bind_ret_inv in Hwait as (code & s2' & Hcall & [_ ->]%mret_inv).
      by apply device_call_inv in Hcall as (w & _ & ->).
    - apply bind_ret_inv in Hwait as (d & s2' & [_ ->]%read_attr_inv & Hcall).
      by apply device_call_inv in Hcall as (w & _ & ->). }
  unfold read_counts in Hread.
  apply bind_ret_inv in Hread as (countdata & s4 & Hcall & Hread).
  apply bind_ret_inv in Hread as (bins & s5 & [_ ->]%read_attr_inv & Hread).
  apply bind_ret_inv in Hread as (channel & s6 & [_ ->]%py_index_inv & Hread).
  apply mret_inv in Hread as [_ ->].
  apply device_call_inv in Hcall as (w & _ & ->). by rewrite <- K2.
Qed.

(** A pixel whose body returns leaves a ready adapter ready. *)
Lemma scan_pixel_keeps_ok line_path i count_data s cd' s' :
  position_ok s → ranges_ok s →
  scan_pixel env line_path i count_data s = (Ret cd', s') →
  position_ok s' ∧ ranges_ok s'.
Proof.
  intros Hp Hr H.
  apply scan_pixel_after_position in H
    as (nrows & ncols & cell & c & s1 & _ & _ & _ & Hset & Hself).
  destruct (scanner_set_position_total (Some (cell 0 i)) (Some (cell 1 i))
              (Some (cell 2 i)) (Some (cell 3 i)) s Hp Hr)
    as (c' & s1' & Hset' & Hp1).
  rewrite Hset in Hset'. inversion Hset'; subst c' s1'.
  apply scanner_set_position_effect in Hset as [_ [Kr _ _]].
  split.
  - destruct Hp1 as (pos & Hpos & Hlen). exists pos. by rewrite Hself.
  - intros j Hj. rewrite Hself, Kr. by apply Hr.
Qed.

Lemma scan_pixels_keep_ok line_path indices count_data s cd' s' :
  position_ok s → ranges_ok s →
  scan_pixels env line_path indices count_data s = (Ret cd', s') →
  position_ok s' ∧ ranges_ok s' ∧
  _scanner_position_ranges (self s') = _scanner_position_ranges (self s) ∧
  int_array (_current_position (self s')) =
    int_array (_current_position (self s)).
Proof.
  revert count_data s.
  induction indices as [|i indices IH]; intros count_data s Hp Hr H.
  - by apply mret_inv in H as [_ ->].
  - cbn [scan_pixels] in H.
    apply bind_ret_inv in H as (cd1 & s1 & Hpixel & H).
    pose proof (scan_pixel_keeps_ok _ _ _ _ _ _ Hp Hr Hpixel) as [Hp1 Hr1].
    destruct (IH _ _ Hp1 Hr1 H) as (Hp' & Hr' & Hranges & Hkind).
    split; [done|]. split; [done|]. rewrite Hranges, Hkind.
    apply scan_pixel_after_position in Hpixel
      as (nrows & ncols & cell & c & s2 & _ & _ & _ & Hset & Hself).
    rewrite Hself.
    rewrite (scanner_set_position_keeps_kind _ _ _ _ _ _ _ Hset).
    apply scanner_set_position_effect in Hset as [_ [Kr _ _]].
    by rewrite Kr.
Qed.

(** X20. A scan that returns leaves the position at its last pixel when
    that pixel passes the range checks: on an adapter that holds a position
    array of four entries (a [float64] array, or an [int64] array to which
    every coordinate within the ranges can be written) and a full range
    table, after a returning scan of
    the N + 1 pixels of a 4 x (N + 1) array whose last column is within the
    ranges, [get_scanner_position] returns that last column as the
    position array holds it, whatever the stage answered to the moves: the
    column itself when the array is a [float64] array, the integer parts of
    its entries when the array is an [int64] array. *)
Theorem scan_line_ends_at_last_pixel N cell s result s' :
  position_ok s → ranges_ok s →
  (∀ j, j < 4 → in_range (_scanner_position_ranges (self s)) j (cell j N)) →
  scan_line env (LineNdarray2 4 (S N) cell) s = (Ret result, s') →
  get_scanner_position env s' =
    (Ret (Some (held (_current_position (self s)) <$>
                [cell 0 N; cell 1 N; cell 2 N; cell 3 N])), s') ∧
  (int_array (_current_position (self s)) = false →
   get_scanner_position env s' =
     (Ret (Some (PyFloat <$> [cell 0 N; cell 1 N; cell 2 N; cell 3 N])), s')).
Proof.
  intros Hp Hr Hlast H. rewrite scan_line_ndarray2 in H.
  apply bind_ret_inv in H as (cd & s2 & Hloop & [_ ->]%mret_inv).
  replace (S N) with (N + 1) in Hloop at 2 by lia.
  rewrite seq_app in Hloop.
  apply scan_pixels_prefix_returns in Hloop as (cd1 & s1 & Hbefore & Hloop).
  apply scan_pixels_keep_ok in Hbefore
    as ((p & Hpos & Hlen & Hfit) & Hr1 & Hranges & Hkind); [|done..].
  cbn [seq scan_pixels] in Hloop. rewrite Nat.add_0_l in Hloop.
  apply bind_ret_inv in Hloop as (cd2 & s3 & Hpixel & [_ ->]%mret_inv).
  apply scan_pixel_after_position in Hpixel
    as (nrows & ncols & cell' & c & s4 & Heq & _ & _ & Hset & Hself).
  inversion Heq; subst nrows ncols cell'. clear Heq.
  cbn [self lined_up] in Hranges, Hkind.
  change (_scanner_position_ranges (set_line_length (S N) (self s)))
    with (_scanner_position_ranges (self s)) in Hranges.
  change (_current_position (set_line_length (S N) (self s)))
    with (_current_position (self s)) in Hkind.
  rewrite Hpos in Hkind.
  rewrite (run_scanner_set_position_passes _ _ _ _ p s1 Hpos Hlen Hfit)
    in Hset.
  - inversion Hset; subst s4. clear Hset.
    assert (get_scanner_position env s3 =
            (Ret (Some (held (Some p) <$>
                        [cell 0 N; cell 1 N; cell 2 N; cell 3 N])), s3)) as E.
    { unfold get_scanner_position.
      rewrite (run_bind_ret _ _ _
                 (target_array (Some (cell 0 N)) (Some (cell 1 N))
                    (Some (cell 2 N)) (Some (cell 3 N)) p) s3).
      2: { apply run_read_attr. rewrite Hself. reflexivity. }
      destruct p as [pos| | |pos]; try discriminate; simpl in Hlen;
        destruct pos as [|p0 [|p1 [|p2 [|p3 [|]]]]]; try discriminate;
        reflexivity. }
    rewrite E. unfold held. rewrite Hkind. split; [done|].
    intros Hfloat. by rewrite Hfloat.
  - rewrite Hranges. apply Hlast. lia.
  - rewrite Hranges. apply Hlast. lia.
  - rewrite Hranges. apply Hlast. lia.
  - rewrite Hranges. apply Hlast. lia.
Qed.

End ScanPosition.

(** * More runs in the laboratory *)

Module MoreRuns.

Import Lab Runs.

(** The laboratory with a stage that does not answer [get_constraints]. *)
Definition silent_env : environment := {|
  World := lab;
  stage_get_constraints w := (Raise HardwareError, w);
  stage_get_pos := stage_get_pos env;
  stage_move_abs := stage_move_abs env;
  stage_on_target := stage_on_target env;
  time_sleep := time_sleep env;
  counter_countdata := counter_countdata env;
  np_mean := np_mean env;
|}.

Definition last_of_three : nat → nat → float :=
  nth_row [[1e-6; 2e-6; 3e-6]; [0; 0; 0];
           [155e-6; 155e-6; 155e-6]; [0; 0; 0]]%float.

Definition short_table : list (list float) :=
  [[0; 300e-6]; [0; 300e-6]; [150e-6]]%float.

End MoreRuns.

Section MoreWitnesses.

Import Lab Runs MoreRuns.

Lemma fresh_position_ok : position_ok fresh.
Proof. by exists (PosNdarray start). Qed.

Lemma fresh_ranges_ok : ranges_ok fresh.
Proof.
  intros i Hi. destruct i as [|[|[|[|]]]]; [| | | |lia];
    eexists _, _, _; by repeat split.
Qed.


(** A position array of integers.  After an activation at which the stage
    reports integers the position is an [int64] array;
    [scanner_set_position(x=100e-6)] then passes the check of x, writes the
    integer part 0 of x and commands the stage to x = 0. *)
Lemma scanner_set_position_on_integer_position :
  let s := (on_activate env
              (bench (init ranges) (answering [Ret reported_steps]))).2 in
  let run := scanner_set_position env (Some 100e-6%float) None None None s in
  get_scanner_position env s =
    (Ret (Some (PyInt <$> [int64_of 1 eq_refl; int64_of 2 eq_refl;
                           int64_of 155 eq_refl; int64_zero])), s) ∧
  in_range ranges 0 100e-6%float ∧
  run.1 = Ret 0%Z ∧
  trace run.2 = trace s ++ [EvMoveAbs (<["x" := PyInt int64_zero]> ∅)] ∧
  get_scanner_position env run.2 =
    (Ret (Some (PyInt <$> [int64_zero; int64_of 2 eq_refl;
                           int64_of 155 eq_refl; int64_zero])), run.2).
Proof.
  intros s run. split; [by vm_compute|]. split.
  { exists 0%float, 300e-6%float. split; [by eexists|by split]. }
  split; [by vm_compute|]. split; by vm_compute.
Qed.

Lemma scanner_set_position_out_of_range_witness :
  ∃ s', scanner_set_position env (Some 100e-6%float) (Some 310e-6%float)
          None None fresh = (Ret (-1)%Z, s') ∧
        trace s' = trace fresh ∧ world s' = world fresh.
Proof.
  apply (scanner_set_position_out_of_range (env:=env)).
  - apply fresh_position_ok.
  - apply fresh_ranges_ok.
  - exists 1, 310e-6%float. split; [reflexivity|].
    exists 0%float, 300e-6%float. split; [by eexists|by right].
Defined.

Lemma scanner_set_position_rejects_nan_witness :
  ∃ s', scanner_set_position env (Some 100e-6%float) None (Some nan) None
          fresh = (Ret (-1)%Z, s') ∧
        trace s' = trace fresh ∧ world s' = world fresh.
Proof.
  apply (scanner_set_position_rejects_nan (env:=env) _ _ _ _ fresh 2).
  - apply fresh_position_ok.
  - apply fresh_ranges_ok.
  - reflexivity.
Defined.

Lemma scanner_set_position_returns_code_witness :
  ∃ c s', scanner_set_position env (Some 100e-6%float) None None None
            (bench activated stage_down) = (Ret c, s') ∧
          (c = 0%Z ∨ c = (-1)%Z) ∧ position_ok s' ∧
          _scanner_position_ranges (self s') = ranges.
Proof.
  apply (scanner_set_position_returns_code (env:=env) _ _ _ _
           (bench activated stage_down)).
  - by exists (PosNdarray start).
  - apply fresh_ranges_ok.
Defined.

Lemma read_counts_window_witness :
  ∃ window,
    read_counts env fresh =
      (Ret window,
       Build_machine env (self fresh) (world fresh)
         (trace fresh ++ [EvCountdata]) (logged fresh)) ∧
    ((0 < 1)%Z → window = most_recent (Z.to_nat 1) [7%float]) ∧
    (1%Z = 0%Z → window = [7%float]) ∧
    ((1 < 0)%Z → window = drop (Z.to_nat (- 1)) [7%float]).
Proof.
  apply (read_counts_window (env:=env) 1 [7%float] fresh); reflexivity.
Defined.

Lemma scan_line_ignores_rows_after_fourth_witness :
  scan_line env five_rows fresh =
  scan_line env
    (LineNdarray2 4 1 (nth_row [[1e-6]; [2e-6]; [155e-6]; [0]; [9]]%float))
    fresh.
Proof.
  apply (scan_line_ignores_rows_after_fourth (env:=env) 5 1). lia.
Defined.

Lemma scan_line_too_few_rows_witness :
  scan_line env (LineNdarray2 3 3 last_of_three) fresh =
  (Raise IndexError, lined_up 3 fresh).
Proof.
  apply (scan_line_too_few_rows (env:=env) 3 3 last_of_three fresh); lia.
Defined.

Lemma activation_after_key_error_witness :
  ∃ s',
    on_activate env
      (bench (init ranges) (answering [Raise KeyError; Ret reported])) =
      (Ret 0%Z, s') ∧
    trace s' = [] ++ [EvGetConstraints; EvGetPos] ∧
    get_scanner_position env s' = (Ret None, s') ∧
    scanner_set_position env (Some 100e-6%float) None None None s' =
      (Raise IndexError, s').
Proof.
  apply (activation_after_key_error (env:=env) ∅
           (answering [Raise KeyError; Ret reported])
           (answering [Ret reported])
           0%float 300e-6%float 0%float 300e-6%float
           150e-6%float 160e-6%float (-10)%float 10%float 100e-6%float
           (bench (init ranges) (answering [Raise KeyError; Ret reported]))).
  - reflexivity.
  - reflexivity.
  - by left.
  - reflexivity.
  - reflexivity.
Defined.

Lemma activation_raises_with_get_constraints_witness :
  on_activate silent_env (Build_machine silent_env (init ranges) stage_ok [] []) =
  (Raise HardwareError,
   Build_machine silent_env (init ranges) stage_ok ([] ++ [EvGetConstraints]) []).
Proof.
  apply (activation_raises_with_get_constraints (env:=silent_env)
           HardwareError stage_ok
           (Build_machine silent_env (init ranges) stage_ok [] [])).
  reflexivity.
Defined.

Lemma position_unreadable_after_fallback_witness :
  let s := bench (init ranges)
             (answering [Raise HardwareError; Raise HardwareError]) in
  ∃ s',
    on_activate env s = (Ret (-1)%Z, s') ∧
    get_scanner_position env s' = (Raise AttributeError, s') ∧
    _dwell_cnt_bins (self s') = None ∧
    _dwell_delay (self s') = None.
Proof.
  apply (position_unreadable_after_fallback (env:=env) ∅
           (answering [Raise HardwareError; Raise HardwareError])
           HardwareError (answering [Raise HardwareError])
           (answering [Raise HardwareError]) HardwareError (answering [])
           0%float 300e-6%float 0%float 300e-6%float
           150e-6%float 160e-6%float (-10)%float 10%float
           (bench (init ranges)
              (answering [Raise HardwareError; Raise HardwareError])));
    reflexivity.
Defined.

Lemma activation_raises_on_short_table_witness :
  ∃ s', on_activate env (bench (init short_table) stage_ok) =
          (Raise IndexError, s') ∧
        trace s' = [] ++ [EvGetConstraints] ∧
        _current_position (self s') = None.
Proof.
  apply (activation_raises_on_short_table (env:=env) ∅ stage_ok
           (bench (init short_table) stage_ok)); reflexivity.
Defined.

Lemma position_range_init_compares_xyz_witness :
  _get_position_range_init env (bench (init ranges) stage_ok) =
  (Ret (),
   Build_machine env (init ranges) stage_ok ([] ++ [EvGetConstraints])
     ([] ++
      [if table_eqb (take 3 ranges)
            [stage_limits ∅ "x"; stage_limits ∅ "y"; stage_limits ∅ "z"]
       then (LogDebug,
             "Config interfuse range xyz: hardware stage constraints == logic scan range.")
       else (LogWarning,
             "Config interfuse warning: hardware stage constraints range NOT equal to logic scan range.")])).
Proof.
  apply (position_range_init_compares_xyz (env:=env) ∅ stage_ok
           (bench (init ranges) stage_ok)).
  reflexivity.
Defined.

Lemma scan_line_ends_at_last_pixel_witness :
  let s' := (scan_line env three_pixels fresh).2 in
  get_scanner_position env s' =
    (Ret (Some (held (_current_position (self fresh)) <$>
                [3e-6; 0; 155e-6; 0]%float)), s') ∧
  (int_array (_current_position (self fresh)) = false →
   get_scanner_position env s' =
     (Ret (Some (PyFloat <$> [3e-6; 0; 155e-6; 0]%float)), s')).
Proof.
  apply (scan_line_ends_at_last_pixel (env:=env) 2 last_of_three fresh
           (Array2 [[1e-6]; [2e-6]; [3e-6]]%float)).
  - apply fresh_position_ok.
  - apply fresh_ranges_ok.
  - intros j Hj. destruct j as [|[|[|[|]]]]; [| | | |lia];
      eexists _, _; (split; [by eexists|by split]).
  - vm_compute. reflexivity.
Defined.

End MoreWitnesses.
